(** * FinCore Monitoring: the dashboard's engine, embedded and verified

    The development follows the TypeScript sources:

    - [AIAnalytics] embeds [generateAIInsights] of
      [src/components/AIAnalytics.tsx] (the rule engine);
    - [Poller] embeds [fetchServiceHealth] of [src/App.tsx] (the poll loop
      and the overview it aggregates);
    - [Buffer] embeds [generateMetricsData] of [src/App.tsx] (the rolling
      metric series);
    - [Alerts] embeds the alert part of [generateRealtimeData] of
      [src/App.tsx].

    JavaScript numbers are modelled as exact rationals, extended with the
    three values a division can add to them ([NaN] and the two infinities).
    Rounding of IEEE doubles is not modelled.  Calls of [Math.random()],
    [Date.now()] and [axios.get] are inputs of the functions that make them. *)

From Stdlib Require Import QArith Qround Qminmax Lqa.
From stdpp Require Import gmap strings list pretty.

(** ** JavaScript numbers *)

Module JS.

Inductive number : Type :=
| Fin (q : Q)
| PosInf
| NegInf
| NaN.

(** [a < b] on rationals, as a boolean. *)
Definition Qltb (a b : Q) : bool := negb (Qle_bool b a).

(** [a / b] for finite operands: a zero divisor gives [NaN] for [0 / 0] and an
    infinity of the sign of [a] otherwise. *)
Definition div (a b : Q) : number :=
  if Qeq_bool b 0 then
    if Qeq_bool a 0 then NaN
    else if Qltb 0 a then PosInf else NegInf
  else Fin (a / b)%Q.

(** [x > t] and [x < t]: every comparison with [NaN] is false. *)
Definition gt (x : number) (t : Q) : bool :=
  match x with
  | Fin q => Qltb t q
  | PosInf => true
  | NegInf | NaN => false
  end.

Definition lt (x : number) (t : Q) : bool :=
  match x with
  | Fin q => Qltb q t
  | NegInf => true
  | PosInf | NaN => false
  end.

(** [array.length] as a number. *)
Definition len {A} (l : list A) : Q := inject_Z (Z.of_nat (length l)).

(** [x.toFixed(0)] for a finite [x] below [10^21]: the sign, then the nearest
    integer, the larger one on a tie. *)
Definition toFixed0 (x : Q) : string :=
  if Qltb x 0
  then "-" +:+ pretty (Qfloor (- x + (1 # 2))%Q)
  else pretty (Qfloor (x + (1 # 2))%Q).

End JS.

(** ** The records of a service (interface [ServiceStatus] of [App.tsx]) *)

Inductive Status : Type := healthy | warning | error.

Global Instance Status_eq_dec : EqDecision Status.
Proof. solve_decision. Defined.

Record Metrics : Type := mkMetrics {
  cpu : Q;
  memory : Q;
  requests_per_second : Q;
  active_connections : Q
}.

Record ServiceStatus : Type := mkService {
  name : string;
  status : Status;
  url : string;
  uptime : string;
  responseTime : Q;
  errorRate : Q;
  description : string;
  metrics : Metrics
}.

(** The arithmetic mean of a list of rationals, as the specification words it:
    the sum of the values over their number. *)
Definition mean (xs : list Q) : Q :=
  (foldr Qplus 0 xs / inject_Z (Z.of_nat (length xs)))%Q.

(** ** The rule engine ([AIAnalytics.tsx]) *)

Module AIAnalytics.

Inductive InsightType : Type := prediction | anomaly | capacity | health.
Inductive Severity : Type := low | medium | high.

Global Instance InsightType_eq_dec : EqDecision InsightType.
Proof. solve_decision. Defined.
Global Instance Severity_eq_dec : EqDecision Severity.
Proof. solve_decision. Defined.

(** The [data] payload of an insight, one shape per rule. *)
Inductive InsightData : Type :=
| PredictionData (predicted_increase : Q) (timeframe : string)
    (affected_services : list string)
| AnomalyData (anomaly_score : Q) (affected_timeframe pattern_type : string)
| CapacityData (predicted_growth : Q) (timeframe scaling_trigger : string)
| HealthRiskData (health_score : JS.number) (risk_level : Severity)
    (affected_services : list string)
| OptimalData (health_score : Q) (optimization_opportunities : list string).

Record AIInsight : Type := mkInsight {
  type : InsightType;
  title : string;
  description : string;
  confidence : Q;
  severity : Severity;
  recommendations : list string;
  data : InsightData
}.

Definition predictionInsight : AIInsight :=
  {| type := prediction;
     title := "Performance Degradation Predicted";
     description := "AI models predict a 15% increase in response times over the next hour based on current trends.";
     confidence := 0.87;
     severity := medium;
     recommendations :=
       [ "Consider preemptive scaling of high-load services";
         "Review database connection pools";
         "Monitor memory usage patterns" ];
     data := PredictionData 15 "1 hour" ["payments"; "investments"] |}.

Definition anomalyInsight : AIInsight :=
  {| type := anomaly;
     title := "Unusual Error Pattern Detected";
     description := "Machine learning models detected anomalous error patterns in the last 20 minutes.";
     confidence := 0.92;
     severity := high;
     recommendations :=
       [ "Investigate recent deployments";
         "Check external service dependencies";
         "Review error logs for common patterns" ];
     data := AnomalyData 0.85 "20 minutes" "spike" |}.

Definition capacityInsight : AIInsight :=
  {| type := capacity;
     title := "Capacity Scaling Recommended";
     description := "Predictive models suggest scaling requirements will increase by 25% in the next 48 hours.";
     confidence := 0.78;
     severity := medium;
     recommendations :=
       [ "Prepare horizontal scaling for payments service";
         "Increase connection pool limits";
         "Consider load balancer optimization" ];
     data := CapacityData 25 "48 hours" "connection_threshold" |}.

(** [((1 - healthScore) * 100).toFixed(0)] *)
Definition riskPercent (healthScore : JS.number) : string :=
  match healthScore with
  | JS.Fin q => JS.toFixed0 ((1 - q) * 100)%Q
  | JS.PosInf => "-Infinity"
  | JS.NegInf => "Infinity"
  | JS.NaN => "NaN"
  end.

Definition healthInsight (services : list ServiceStatus)
    (healthScore : JS.number) : AIInsight :=
  {| type := health;
     title := "System Health Risk Assessment";
     description :=
       "AI health models indicate a " +:+ riskPercent healthScore
         +:+ "% risk of service degradation.";
     confidence := 0.83;
     severity := if JS.lt healthScore 0.7 then high else medium;
     recommendations :=
       [ "Monitor warning services closely";
         "Prepare rollback procedures";
         "Increase monitoring frequency" ];
     data :=
       HealthRiskData healthScore
         (if JS.lt healthScore 0.7 then high else medium)
         (name <$> filter (λ s, status s ≠ healthy) services) |}.

Definition optimalInsight : AIInsight :=
  {| type := health;
     title := "System Operating Optimally";
     description := "AI analysis shows all systems are performing within expected parameters with no predicted issues.";
     confidence := 0.95;
     severity := low;
     recommendations :=
       [ "Maintain current monitoring levels";
         "Continue regular health checks";
         "Consider performance optimization opportunities" ];
     data := OptimalData 0.98 ["cache optimization"; "query performance"] |}.

(** The four quantities the rules test. *)
Definition avgResponseTime (services : list ServiceStatus) : JS.number :=
  JS.div (foldl (λ sum s, sum + responseTime s)%Q 0%Q services) (JS.len services).

Definition avgErrorRate (services : list ServiceStatus) : JS.number :=
  let errorRates := errorRate <$> services in
  JS.div (foldl (λ sum rate, sum + rate)%Q 0%Q errorRates) (JS.len errorRates).

Definition totalConnections (services : list ServiceStatus) : Q :=
  foldl (λ sum s, sum + active_connections (metrics s))%Q 0%Q services.

Definition healthScore (services : list ServiceStatus) : JS.number :=
  let healthyServices := JS.len (filter (λ s, status s = healthy) services) in
  JS.div healthyServices (JS.len services).

(** [newInsights.push(i)] when [c] holds. *)
Definition pushIf (c : bool) (i : AIInsight) (newInsights : list AIInsight) :
    list AIInsight :=
  if c then newInsights ++ [i] else newInsights.

(** [generateAIInsights]: the list handed to [setInsights]. *)
Definition generateAIInsights (services : list ServiceStatus) : list AIInsight :=
  let newInsights : list AIInsight := [] in
  let newInsights :=
    pushIf (JS.gt (avgResponseTime services) 60) predictionInsight newInsights in
  let newInsights :=
    pushIf (JS.gt (avgErrorRate services) 0.03) anomalyInsight newInsights in
  let newInsights :=
    pushIf (JS.Qltb 150 (totalConnections services)) capacityInsight newInsights in
  let newInsights :=
    pushIf (JS.lt (healthScore services) 1)
      (healthInsight services (healthScore services)) newInsights in
  pushIf (length newInsights =? 0)%nat optimalInsight newInsights.

(** The conditions of the four threshold rules. *)
Definition predictionFires (services : list ServiceStatus) : bool :=
  JS.gt (avgResponseTime services) 60.
Definition anomalyFires (services : list ServiceStatus) : bool :=
  JS.gt (avgErrorRate services) 0.03.
Definition capacityFires (services : list ServiceStatus) : bool :=
  JS.Qltb 150 (totalConnections services).
Definition healthFires (services : list ServiceStatus) : bool :=
  JS.lt (healthScore services) 1.

Definition noRuleFires (services : list ServiceStatus) : Prop :=
  predictionFires services = false ∧ anomalyFires services = false ∧
  capacityFires services = false ∧ healthFires services = false.

(** An insight that declares nominal operation: type [health], confidence
    0.95, severity [low]. *)
Definition nominal (i : AIInsight) : bool :=
  match type i, severity i with
  | health, low => Qeq_bool (confidence i) 0.95
  | _, _ => false
  end.


Definition affectedServices (i : AIInsight) : option (list string) :=
  match data i with
  | PredictionData _ _ l | HealthRiskData _ _ l => Some l
  | _ => None
  end.

End AIAnalytics.

(** ** The poll cycle and the overview ([fetchServiceHealth] of [App.tsx]) *)

(** An entry of [serviceConfigs]. *)
Module Config.
Record t : Type := mk { name : string; url : string; description : string }.
End Config.

(** [response.data]: the JSON object a health endpoint answers with.  Every
    field may be absent ([None]). *)
Module Payload.
Record t : Type := mk {
  status : option Status;
  uptime : option string;
  responseTime : option Q;
  errorRate : option Q;
  metrics : option Metrics
}.
End Payload.

(** The overview handed to [setSystemOverview]. *)
Module Overview.
Record t : Type := mk {
  totalRequests : Q;
  activeConnections : Q;
  totalAccounts : Q;
  portfolioValue : Q;
  paymentsProcessed : Q;
  errorRate : JS.number
}.
End Overview.

Module Poller.

(** What [await axios.get(...)] does: it yields a response, or it throws
    (network error, timeout, status outside 2xx).  A response carries an
    object ([Resolved]) or no object at all ([ResolvedNull]: [response.data]
    is [null] or [undefined], so that reading [data.status] throws inside the
    [try]). *)
Inductive Outcome : Type :=
| Resolved (data : Payload.t)
| Rejected
| ResolvedNull.

(** [serviceConfigs] as the source declares it. *)
Definition serviceConfigs : list Config.t :=
  [ Config.mk "Payments Service" "http://localhost:8001"
      "Handles instant payments and transactions";
    Config.mk "Investments Service" "http://localhost:8002"
      "Personalized investment tracking and portfolio management";
    Config.mk "Accounts Service" "http://localhost:8003"
      "Automated account services and customer management" ].

Definition zeroMetrics : Metrics :=
  {| cpu := 0; memory := 0; requests_per_second := 0; active_connections := 0 |}.

(** [s || d] on an optional string: the empty string is falsy too. *)
Definition orString (s : option string) (d : string) : string :=
  match s with
  | Some v => if String.eqb v "" then d else v
  | None => d
  end.

(** The record pushed in the [try] block. *)
Definition normalize (config : Config.t) (data : Payload.t) : ServiceStatus :=
  {| name := Config.name config;
     url := Config.url config;
     description := Config.description config;
     status := default healthy (Payload.status data);
     uptime := orString (Payload.uptime data) "99.99%";
     responseTime := default 0%Q (Payload.responseTime data);
     errorRate := default 0%Q (Payload.errorRate data);
     metrics := default zeroMetrics (Payload.metrics data) |}.

(** The record pushed in the [catch] block. *)
Definition failed (config : Config.t) : ServiceStatus :=
  {| name := Config.name config;
     url := Config.url config;
     description := Config.description config;
     status := error;
     uptime := "N/A";
     responseTime := 0;
     errorRate := 1;
     metrics := zeroMetrics |}.

(** One turn of the [for] loop: [try { ... } catch (error) { ... }]. *)
Definition pollOne (config : Config.t) (o : Outcome) : ServiceStatus :=
  match o with
  | Resolved data => normalize config data
  | Rejected => failed config
  | ResolvedNull => failed config
  end.

(** The [for (const config of serviceConfigs)] loop.  [get i u] is the outcome
    of the request of turn [i], made to the address [u]. *)
Fixpoint pollFrom (get : nat → string → Outcome) (i : nat)
    (configs : list Config.t) (newServices : list ServiceStatus) :
    list ServiceStatus :=
  match configs with
  | [] => newServices
  | config :: rest =>
      pollFrom get (S i) rest
        (newServices ++ [pollOne config (get i (Config.url config +:+ "/health"))])
  end.

Definition poll (get : nat → string → Outcome) (configs : list Config.t) :
    list ServiceStatus :=
  pollFrom get 0 configs [].

(** [newServices.find(s => s.name === n)?.metrics.requests_per_second ?? 0] *)
Definition rpsOf (n : string) (newServices : list ServiceStatus) : Q :=
  default 0%Q
    ((λ s, requests_per_second (metrics s))
       <$> find (λ s, String.eqb (name s) n) newServices).

(** "Aggregate system overview": from [newServices] to the overview. *)
Definition aggregate (newServices : list ServiceStatus) : Overview.t :=
  let totalRequests :=
    foldl (λ acc s, acc + requests_per_second (metrics s) * 60)%Q 0%Q newServices in
  let activeConnections :=
    foldl (λ acc s, acc + active_connections (metrics s))%Q 0%Q newServices in
  let totalAccounts := rpsOf "Accounts Service" newServices in
  let portfolioValue := rpsOf "Investments Service" newServices in
  let paymentsProcessed := rpsOf "Payments Service" newServices in
  let errorRate :=
    JS.div (foldl (λ acc s, acc + errorRate s)%Q 0%Q newServices)
      (JS.len newServices) in
  Overview.mk totalRequests activeConnections totalAccounts portfolioValue
    paymentsProcessed errorRate.

(** [fetchServiceHealth], over any list of configurations: the values handed
    to [setServices] and to [setSystemOverview]. *)
Definition fetchServiceHealth (get : nat → string → Outcome)
    (configs : list Config.t) : list ServiceStatus * Overview.t :=
  let newServices := poll get configs in
  (newServices, aggregate newServices).

(** [s] is the first record of [l] named [n]. *)
Definition firstNamed (n : string) (l : list ServiceStatus) (s : ServiceStatus) :
    Prop :=
  ∃ l1 l2, l = l1 ++ s :: l2 ∧ name s = n ∧ ∀ x, x ∈ l1 → name x ≠ n.

End Poller.

(** ** The rolling metric series ([generateMetricsData] of [App.tsx]) *)

Module Buffer.

Record MetricData : Type := mkPoint { timestamp : string; value : Q }.

Definition metricTypes : list string :=
  ["requestRate"; "responseTime"; "errorRate"; "memoryUsage"; "cpuUsage"].

(** The [switch]: base value and variance of a metric type. *)
Definition baseValue (metricType : string) : Q :=
  if String.eqb metricType "requestRate" then 150
  else if String.eqb metricType "responseTime" then 50
  else if String.eqb metricType "errorRate" then 0.02
  else if String.eqb metricType "memoryUsage" then 65
  else if String.eqb metricType "cpuUsage" then 25
  else 50.

Definition variance (metricType : string) : Q :=
  if String.eqb metricType "requestRate" then 30
  else if String.eqb metricType "responseTime" then 20
  else if String.eqb metricType "errorRate" then 0.01
  else if String.eqb metricType "memoryUsage" then 10
  else if String.eqb metricType "cpuUsage" then 15
  else 10.

(** The data point of a metric type, for the draw [r] of [Math.random()] and
    [now] the value of [now.toISOString()]. *)
Definition point (metricType now : string) (r : Q) : MetricData :=
  {| timestamp := now;
     value :=
       Qmax 0 (baseValue metricType + r * variance metricType
               - variance metricType / 2) |}.

(** [a.slice(-n)]: the last [n] elements, all of them when there are fewer. *)
Definition sliceLast {A} (n : nat) (a : list A) : list A :=
  drop (length a - n) a.

(** What one turn of the [forEach] does to a series: append the point, then
    keep only the last 20 when there are more. *)
Definition push (series : list MetricData) (p : MetricData) : list MetricData :=
  let series := series ++ [p] in
  if (20 <? length series)%nat then sliceLast 20 series else series.

(** One turn of [metricTypes.forEach], on the object [newMetrics]; [r] is the
    draw of this turn. *)
Definition turn (now : string) (r : Q) (newMetrics : gmap string (list MetricData))
    (metricType : string) : gmap string (list MetricData) :=
  let newMetrics :=
    match newMetrics !! metricType with
    | None => <[metricType := []]> newMetrics
    | Some _ => newMetrics
    end in
  let series := default [] (newMetrics !! metricType) ++ [point metricType now r] in
  let newMetrics := <[metricType := series]> newMetrics in
  if (20 <? length series)%nat
  then <[metricType := sliceLast 20 series]> newMetrics
  else newMetrics.

(** The [forEach] from turn [i] on; [random k] is the [k]-th draw of the run. *)
Fixpoint forEachFrom (now : string) (random : nat → Q) (i : nat)
    (types : list string) (newMetrics : gmap string (list MetricData)) :
    gmap string (list MetricData) :=
  match types with
  | [] => newMetrics
  | metricType :: rest =>
      forEachFrom now random (S i) rest
        (turn now (random i) newMetrics metricType)
  end.

(** [generateMetricsData]: from the [metrics] it reads to the object handed to
    [setMetrics].  [{ ...metrics }] copies the object, not its arrays; the
    arrays of the object read are not used again once the new one is set. *)
Definition generateMetricsData (metrics : gmap string (list MetricData))
    (now : string) (random : nat → Q) : gmap string (list MetricData) :=
  let newMetrics := metrics in
  forEachFrom now random 0 metricTypes newMetrics.

(** What the page stores after the runs of [generateMetricsData] as the
    component installs it.  The function is created once, inside
    [useEffect(() => { ... }, [])], so the [metrics] it reads at every run,
    the first call and each tick of [setInterval] alike, is the one of the
    first render: the [{}] given to [useState].  A run is its reading of the
    clock and its draws; [setMetrics] stores what the run has built. *)
Definition installedMetrics (runs : list (string * (nat → Q))) :
    gmap string (list MetricData) :=
  foldl (λ _ run, generateMetricsData ∅ run.1 run.2) ∅ runs.

End Buffer.

(** ** The alert list ([generateRealtimeData] of [App.tsx]) *)

Module Alerts.

Inductive AlertType : Type := critical | warning | info.

Global Instance AlertType_eq_dec : EqDecision AlertType.
Proof. solve_decision. Defined.

Record Alert : Type := mkAlert {
  id : string;
  service : string;
  type : AlertType;
  message : string;
  timestamp : string;
  resolved : bool
}.

Global Instance Alert_eq_dec : EqDecision Alert.
Proof. solve_decision. Defined.

(** What one run reads from outside: the clock and its draws of
    [Math.random()], in the order the run makes them. *)
Record Cycle : Type := mkCycle {
  nowISO : string;        (* now.toISOString() *)
  dateNow : string;       (* Date.now().toString() *)
  trigger : Q;            (* the draw compared with 0.95 *)
  pickService : Q;        (* the draw that indexes [services] *)
  pickType : Q;           (* the draw that indexes [alertTypes] *)
  pickMessage : Q;        (* the draw that indexes [messages] *)
  resolve : nat → Q       (* the draw made for the [i]-th alert of [newAlerts] *)
}.

Definition alertTypes : list AlertType := [warning; critical; info].
Definition services : list string :=
  ["Payments Service"; "Investments Service"; "Accounts Service"].
Definition messages : list string :=
  [ "High latency detected - 95th percentile above threshold";
    "Memory usage approaching limit";
    "Unusual traffic pattern detected";
    "Database connection pool exhausted";
    "Rate limiting activated" ].

(** [xs[Math.floor(r * xs.length)]].  A draw lies in [0, 1), so the index is
    in range; [undefined] stands for the value JavaScript gives elsewhere. *)
Definition pick {A} (undefined : A) (xs : list A) (r : Q) : A :=
  nth (Z.to_nat (Qfloor (r * JS.len xs))) xs undefined.

(** The alert pushed when the trigger fires. *)
Definition newAlert (c : Cycle) : Alert :=
  {| id := dateNow c;
     service := pick "undefined" services (pickService c);
     type := pick info alertTypes (pickType c);
     message := pick "undefined" messages (pickMessage c);
     timestamp := nowISO c;
     resolved := false |}.

(** [alert.resolved = true] *)
Definition markResolved (alert : Alert) : Alert :=
  {| id := id alert; service := service alert; type := type alert;
     message := message alert; timestamp := timestamp alert; resolved := true |}.

(** The condition under which a new alert is pushed. *)
Definition fires (c : Cycle) (newAlerts : list Alert) : bool :=
  JS.Qltb 0.95 (trigger c) && (length newAlerts <? 5)%nat.

(** "Resolve some alerts randomly": the [forEach] over [newAlerts]. *)
Definition resolveSome (c : Cycle) (newAlerts : list Alert) : list Alert :=
  imap (λ i alert,
          if negb (resolved alert) && JS.Qltb 0.98 (resolve c i)
          then markResolved alert else alert)
       newAlerts.

(** The alert part of [generateRealtimeData]: from the [alerts] the run reads
    to the list it hands to [setAlerts].  The mock services and overview the
    run also sets neither read nor write the alerts.  [alerts] is a variable
    of the enclosing component, so it is a parameter here, and the theorems
    hold for every list a run may read. *)
Definition generateRealtimeData (alerts : list Alert) (c : Cycle) : list Alert :=
  let existingAlerts := filter (λ a, resolved a = false) alerts in
  let newAlerts := existingAlerts in
  let newAlerts :=
    if fires c newAlerts then newAlerts ++ [newAlert c] else newAlerts in
  resolveSome c newAlerts.

(** The alert sets reached from the empty one when each run reads the list
    the run before it stored.  (A run that reads the list of the first
    render instead, as a closure installed once does, reaches only
    [generateRealtimeData [] c], which is among these.) *)
Inductive reachable : list Alert → Prop :=
| reach_init : reachable []
| reach_cycle alerts c :
    reachable alerts → reachable (generateRealtimeData alerts c).

(** The unresolved alerts, and their number (the "active" count the page
    shows). *)
Definition unresolved (alerts : list Alert) : list Alert :=
  filter (λ a, resolved a = false) alerts.
Definition activeCount (alerts : list Alert) : nat := length (unresolved alerts).

(** The deduplication key of the specification. *)
Definition key (a : Alert) : string * AlertType := (service a, type a).

Definition unresolvedWithKey (k : string * AlertType) (alerts : list Alert) : nat :=
  length (filter (λ a, key a = k) (unresolved alerts)).

(** A run whose draws resolve no alert. *)
Definition quiet (c : Cycle) : Prop := ∀ i, (resolve c i <= 0.98)%Q.

(** [b] is the alert [a], as it was or marked resolved. *)
Definition flipped (a b : Alert) : Prop := b = a ∨ b = markResolved a.

(** Modelled from the spec: [resolveAlert(id)], the one write the presentation
    layer may make.  The sources have no such function (nothing in them
    resolves an alert by its id); the specification asks that it move the
    alert of that id to [resolved = true] and do nothing for an unknown id. *)
Definition resolveAlert (i : string) (alerts : list Alert) : list Alert :=
  (λ a, if String.eqb (id a) i then markResolved a else a) <$> alerts.

(** What the page stores after the runs of [generateRealtimeData] as the
    component installs it.  The function is created once, inside
    [useEffect(() => { ... }, [])], so the [alerts] it reads at every run is
    the one of the first render: the [[]] given to [useState].  [setAlerts]
    stores what the run has built. *)
Definition installedAlerts (cs : list Cycle) : list Alert :=
  foldl (λ _ c, generateRealtimeData [] c) [] cs.

End Alerts.

(** ** More of [App.tsx] and of the components *)

(** More of the arithmetic of JavaScript numbers. *)
Module JSArith.

(** [x * k] for a finite [k]: an infinity times zero is [NaN]. *)
Definition mul (x : JS.number) (k : Q) : JS.number :=
  match x with
  | JS.Fin q => JS.Fin (q * k)%Q
  | JS.PosInf =>
      if Qeq_bool k 0 then JS.NaN
      else if JS.Qltb 0 k then JS.PosInf else JS.NegInf
  | JS.NegInf =>
      if Qeq_bool k 0 then JS.NaN
      else if JS.Qltb 0 k then JS.NegInf else JS.PosInf
  | JS.NaN => JS.NaN
  end.

(** [Math.max(x, t)] for a finite [t]: [NaN] when [x] is. *)
Definition max (x : JS.number) (t : Q) : JS.number :=
  match x with
  | JS.Fin q => JS.Fin (Qmax q t)
  | JS.PosInf => JS.PosInf
  | JS.NegInf => JS.Fin t
  | JS.NaN => JS.NaN
  end.

(** [Math.floor(x)] of a finite [x], as a number. *)
Definition floor (x : Q) : Q := inject_Z (Qfloor x).

Fixpoint zeros (n : nat) : string :=
  match n with
  | O => ""
  | S n => "0" +:+ zeros n
  end.

(** [x.toFixed(f)] for a finite [x] below [10^21]: the sign; the integer [n]
    nearest to [x * 10^f], the larger on a tie; its digits, padded with zeros
    to [f + 1] of them, with a point before the last [f]. *)
Definition toFixed (f : nat) (x : Q) : string :=
  let s := if JS.Qltb x 0 then "-" else "" in
  let x := if JS.Qltb x 0 then (- x)%Q else x in
  let n := Qfloor (x * inject_Z (10 ^ Z.of_nat f) + (1 # 2))%Q in
  let m := pretty n in
  if (f =? 0)%nat then s +:+ m
  else
    let k := String.length m in
    let m := if (k <=? f)%nat then zeros (f + 1 - k) +:+ m else m in
    let k := String.length m in
    s +:+ String.substring 0 (k - f) m +:+ "." +:+ String.substring (k - f) f m.

End JSArith.

(** How a card of [AIAnalytics.tsx] shows an insight. *)
Module InsightCard.

Definition getConfidenceColor (confidence : Q) : string :=
  if Qle_bool 0.9 confidence then "text-green-600"
  else if Qle_bool 0.7 confidence then "text-yellow-600"
  else "text-red-600".

(** [insight.recommendations.slice(0, 2)], the lines the card lists. *)
Definition shownRecommendations (i : AIAnalytics.AIInsight) : list string :=
  take 2 (AIAnalytics.recommendations i).

(** The [n] of "+n more recommendations", when the card prints that line. *)
Definition moreRecommendations (i : AIAnalytics.AIInsight) : option nat :=
  if (2 <? length (AIAnalytics.recommendations i))%nat
  then Some (length (AIAnalytics.recommendations i) - 2)%nat
  else None.

(** [(insight.confidence * 100).toFixed(0)], followed by "% confidence". *)
Definition confidenceLabel (i : AIAnalytics.AIInsight) : string :=
  JSArith.toFixed 0 (AIAnalytics.confidence i * 100)%Q +:+ "% confidence".

End InsightCard.

(** The numbers [MetricsChart] derives from the series it is given. *)
Module MetricsChart.

(** [data[data.length - 1]?.value || 0] *)
Definition latestValue (data : list Buffer.MetricData) : Q :=
  default 0%Q (Buffer.value <$> last data).

(** [data.length > 1 ? (latestValue - prev) / prev * 100 : 0], where [prev]
    is [data[data.length - 2].value]: the index is in range when the test
    holds. *)
Definition trend (data : list Buffer.MetricData) : JS.number :=
  if (1 <? length data)%nat then
    let prev := default 0%Q (Buffer.value <$> data !! (length data - 2)%nat) in
    JSArith.mul (JS.div (latestValue data - prev) prev) 100
  else JS.Fin 0.

(** [Math.max((point.value / maxValue) * 100, 2)], the height of a bar in
    percent. *)
Definition height (point : Buffer.MetricData) (maxValue : Q) : JS.number :=
  JSArith.max (JSArith.mul (JS.div (Buffer.value point) maxValue) 100) 2.

(** The [maxValue] the page passes with each series it charts. *)
Definition charted : list (string * Q) :=
  [("requestRate", 200%Q); ("responseTime", 100%Q); ("cpuUsage", 100%Q);
   ("memoryUsage", 100%Q)].

End MetricsChart.

(** Two expressions of [generateResponse] of [AIAssistant.tsx]. *)
Module Assistant.

(** [a.reduce(f)], with no initial value: on an empty array it throws a
    [TypeError] ([None]); otherwise it folds from the first element. *)
Definition reduce1 {A} (f : A → A → A) (a : list A) : option A :=
  match a with
  | [] => None
  | x :: rest => Some (foldl f x rest)
  end.

Definition slowestService (services : list ServiceStatus) : option ServiceStatus :=
  reduce1 (λ prev current,
             if JS.Qltb (responseTime current) (responseTime prev)
             then prev else current) services.

Definition highestErrorService (services : list ServiceStatus) :
    option ServiceStatus :=
  reduce1 (λ prev current,
             if JS.Qltb (errorRate current) (errorRate prev)
             then prev else current) services.

End Assistant.

(** The mock data of [generateRealtimeData] ([App.tsx], first version):
    [random k] is the [k]-th draw of [Math.random()] of the run. *)
Module Mock.

Definition mockServices (random : nat → Q) : list ServiceStatus :=
  [ {| name := "Payments Service";
       status := if JS.Qltb 0.95 (random 0%nat) then warning else healthy;
       url := "http://localhost:8001";
       uptime := JSArith.toFixed 2 (99.9 - random 1%nat * 0.2)%Q +:+ "%";
       responseTime := JSArith.floor (40 + random 2%nat * 20)%Q;
       errorRate := (random 3%nat * 0.02)%Q;
       description := "Handles instant payments and transactions";
       metrics :=
         {| cpu := (15 + random 4%nat * 10)%Q;
            memory := (45 + random 5%nat * 15)%Q;
            requests_per_second := (120 + random 6%nat * 40)%Q;
            active_connections := JSArith.floor (40 + random 7%nat * 20)%Q |} |};
    {| name := "Investments Service";
       status := if JS.Qltb 0.98 (random 8%nat) then warning else healthy;
       url := "http://localhost:8002";
       uptime := JSArith.toFixed 2 (99.8 - random 9%nat * 0.3)%Q +:+ "%";
       responseTime := JSArith.floor (45 + random 10%nat * 25)%Q;
       errorRate := (random 11%nat * 0.025)%Q;
       description := "Personalized investment tracking and portfolio management";
       metrics :=
         {| cpu := (20 + random 12%nat * 15)%Q;
            memory := (55 + random 13%nat * 20)%Q;
            requests_per_second := (80 + random 14%nat * 30)%Q;
            active_connections := JSArith.floor (20 + random 15%nat * 15)%Q |} |};
    {| name := "Accounts Service";
       status := if JS.Qltb 0.92 (random 16%nat) then warning else healthy;
       url := "http://localhost:8003";
       uptime := JSArith.toFixed 2 (99.5 - random 17%nat * 0.4)%Q +:+ "%";
       responseTime := JSArith.floor (50 + random 18%nat * 35)%Q;
       errorRate := (random 19%nat * 0.04)%Q;
       description := "Automated account services and customer management";
       metrics :=
         {| cpu := (25 + random 20%nat * 20)%Q;
            memory := (40 + random 21%nat * 25)%Q;
            requests_per_second := (60 + random 22%nat * 25)%Q;
            active_connections := JSArith.floor (15 + random 23%nat * 10)%Q |} |} ].

Definition mockSystemOverview (random : nat → Q) : Overview.t :=
  {| Overview.totalRequests := (125430 + JSArith.floor (random 24%nat * 100))%Q;
     Overview.activeConnections :=
       (342 + JSArith.floor (random 25%nat * 50 - 25))%Q;
     Overview.totalAccounts := (15678 + JSArith.floor (random 26%nat * 10))%Q;
     Overview.portfolioValue :=
       (2450000 + JSArith.floor (random 27%nat * 50000 - 25000))%Q;
     Overview.paymentsProcessed := (89234 + JSArith.floor (random 28%nat * 20))%Q;
     Overview.errorRate := JS.Fin (0.028 + (random 29%nat * 0.01 - 0.005))%Q |}.

(** Every draw is a value of [Math.random()]: at least 0, below 1. *)
Definition inRange (random : nat → Q) : Prop := ∀ k, (0 <= random k < 1)%Q.

End Mock.

(** ** Concrete inputs used below *)

(** The scenario of the specification: three healthy services, mean response
    time 45 ms, mean error rate 0.01, 90 connections in all. *)
Definition calm : list ServiceStatus :=
  [ mkService "Payments Service" healthy "http://localhost:8001" "99.9%" 40 0.01
      "Handles instant payments and transactions" (mkMetrics 20 50 120 40);
    mkService "Investments Service" healthy "http://localhost:8002" "99.8%" 45 0.01
      "Personalized investment tracking and portfolio management"
      (mkMetrics 25 60 80 30);
    mkService "Accounts Service" healthy "http://localhost:8003" "99.5%" 50 0.01
      "Automated account services and customer management"
      (mkMetrics 30 45 60 20) ].


(** The scenario of the specification: one service at 0.08, the others at
    0.01. *)
Definition oneFailing : list ServiceStatus :=
  [ mkService "Payments Service" healthy "http://localhost:8001" "99.9%" 40 0.08
      "Handles instant payments and transactions" (mkMetrics 20 50 120 40);
    mkService "Investments Service" healthy "http://localhost:8002" "99.8%" 45 0.01
      "Personalized investment tracking and portfolio management"
      (mkMetrics 25 60 80 30);
    mkService "Accounts Service" healthy "http://localhost:8003" "99.5%" 50 0.01
      "Automated account services and customer management"
      (mkMetrics 30 45 60 20) ].

(** The second of the three configured services times out; the other two
    answer, the first with an empty object. *)
Definition oneTimesOut (i : nat) (u : string) : Poller.Outcome :=
  match i with
  | 1%nat => Poller.Rejected
  | 0%nat => Poller.Resolved (Payload.mk None None None None None)
  | _ =>
      Poller.Resolved (Payload.mk (Some warning) (Some "99.5%") (Some 52%Q) (Some 0.02%Q)
                  (Some (mkMetrics 30 45 60 20)))
  end.

(** Twenty-three pushes on an empty series, the points told apart by their
    time stamps. *)
Definition samples (n : nat) : list Buffer.MetricData :=
  (λ i, Buffer.mkPoint (pretty i) 150) <$> seq 0 n.

(** The run of instant [n]: its trigger fires, its draws pick "Payments
    Service", [warning] and the second message, and it resolves nothing. *)
Definition fireAt (n : nat) : Alerts.Cycle :=
  Alerts.mkCycle ("t" +:+ pretty n) (pretty n) 0.96 0.1 0.1 0.3 (λ _, 0.5%Q).

(** Five such runs in a row, from the empty list. *)
Definition fiveAlerts : list Alerts.Alert :=
  foldl Alerts.generateRealtimeData [] (fireAt <$> seq 0 5).

(** A run whose trigger fires and which resolves the alert it has just added,
    and a run that adds and resolves nothing. *)
Definition fireAndResolve : Alerts.Cycle :=
  Alerts.mkCycle "t0" "0" 0.96 0.1 0.1 0.3 (λ _, 0.99%Q).
Definition idle : Alerts.Cycle :=
  Alerts.mkCycle "t1" "1" 0.5 0.1 0.1 0.3 (λ _, 0.5%Q).

(** ** More concrete inputs *)

(** Three healthy services with 160 connections in all. *)
Definition busy : list ServiceStatus :=
  [ mkService "Payments Service" healthy "http://localhost:8001" "99.9%" 40 0.01
      "Handles instant payments and transactions" (mkMetrics 20 50 120 80);
    mkService "Investments Service" healthy "http://localhost:8002" "99.8%" 45 0.01
      "Personalized investment tracking and portfolio management"
      (mkMetrics 25 60 80 50);
    mkService "Accounts Service" healthy "http://localhost:8003" "99.5%" 50 0.01
      "Automated account services and customer management"
      (mkMetrics 30 45 60 30) ].

(** Four services, the first of them in warning: three in four are healthy. *)
Definition oneDegraded : list ServiceStatus :=
  mkService "Accounts Service" warning "http://localhost:8003" "99.5%" 50 0.01
    "Automated account services and customer management" (mkMetrics 30 45 60 20)
  :: calm.

(** Ticks of the metrics timer: the run of instant [i] reads the clock as
    [i] and draws 0.5 every time. *)
Definition ticks (n : nat) : list (string * (nat → Q)) :=
  (λ i, (pretty i, λ _ : nat, 0.5%Q)) <$> seq 0 n.

(** * Theorems *)

(** ** Numbers *)

Section Numbers.

Lemma Qltb_lt a b : JS.Qltb a b = true ↔ (a < b)%Q.
Proof.
  unfold JS.Qltb. rewrite negb_true_iff.
  destruct (Qle_bool b a) eqn:E.
  - apply Qle_bool_iff in E. split; [discriminate | intros H; lra].
  - split; [intros _ | reflexivity].
    apply Qnot_le_lt. intros H. apply Qle_bool_iff in H. congruence.
Qed.

Lemma Qltb_ge a b : JS.Qltb a b = false ↔ (b <= a)%Q.
Proof.
  unfold JS.Qltb. rewrite negb_false_iff. apply Qle_bool_iff.
Qed.

Lemma len_pos {A} (l : list A) : l ≠ [] → (0 < JS.len l)%Q.
Proof.
  intros Hl. destruct l as [|x l]; [done|].
  unfold JS.len, Qlt. simpl. lia.
Qed.

Lemma div_len {A} (a : Q) (l : list A) :
  l ≠ [] → JS.div a (JS.len l) = JS.Fin (a / JS.len l)%Q.
Proof.
  intros Hl. unfold JS.div.
  destruct (Qeq_bool (JS.len l) 0) eqn:E; [|reflexivity].
  apply Qeq_bool_iff in E. pose proof (len_pos l Hl). lra.
Qed.

Lemma div_zero_zero : JS.div 0 0 = JS.NaN.
Proof. reflexivity. Qed.

End Numbers.

(** ** The rule engine *)

Section RuleEngine.

Import AIAnalytics.

Lemma nominal_optimal : nominal optimalInsight = true.
Proof. reflexivity. Qed.

Lemma nominal_prediction : nominal predictionInsight = false.
Proof. reflexivity. Qed.

Lemma nominal_anomaly : nominal anomalyInsight = false.
Proof. reflexivity. Qed.

Lemma nominal_capacity : nominal capacityInsight = false.
Proof. reflexivity. Qed.

Lemma nominal_health services hs : nominal (healthInsight services hs) = false.
Proof. unfold nominal. simpl. destruct (JS.lt hs 0.7); reflexivity. Qed.

(** The insight list, by the four conditions. *)
Lemma generateAIInsights_eq services :
  generateAIInsights services =
    let fired :=
      (if predictionFires services then [predictionInsight] else []) ++
      (if anomalyFires services then [anomalyInsight] else []) ++
      (if capacityFires services then [capacityInsight] else []) ++
      (if healthFires services
       then [healthInsight services (healthScore services)] else []) in
    match fired with
    | [] => [optimalInsight]
    | _ => fired
    end.
Proof.
  unfold generateAIInsights, predictionFires, anomalyFires, capacityFires,
    healthFires, pushIf.
  destruct (JS.gt (avgResponseTime services) 60),
    (JS.gt (avgErrorRate services) 0.03),
    (JS.Qltb 150 (totalConnections services)),
    (JS.lt (healthScore services) 1); reflexivity.
Qed.

Lemma noRuleFires_dec services : noRuleFires services ∨ ¬ noRuleFires services.
Proof.
  unfold noRuleFires.
  destruct (predictionFires services), (anomalyFires services),
    (capacityFires services), (healthFires services); intuition congruence.
Qed.

(** C1. The fallback fires if and only if none of the four threshold rules
    fires: the result holds exactly one insight of type [health] with
    confidence 0.95 and severity [low] exactly when the prediction, anomaly,
    capacity and health conditions are all false, and then it is the whole
    result; when some rule fires no such insight is in the result. *)
Theorem fallback_iff_no_rule_fires (services : list ServiceStatus) :
  (length (filter (λ i, nominal i = true) (generateAIInsights services)) = 1%nat
     ↔ noRuleFires services) ∧
  (noRuleFires services → generateAIInsights services = [optimalInsight]) ∧
  (¬ noRuleFires services →
     filter (λ i, nominal i = true) (generateAIInsights services) = []).
Proof.
  assert (Hyes : noRuleFires services →
                 generateAIInsights services = [optimalInsight]).
  { intros (H1 & H2 & H3 & H4). rewrite generateAIInsights_eq.
    rewrite H1, H2, H3, H4. reflexivity. }
  assert (Hno : ¬ noRuleFires services →
                filter (λ i, nominal i = true) (generateAIInsights services) = []).
  { intros Hn. rewrite generateAIInsights_eq. unfold noRuleFires in Hn.
    pose proof (nominal_health services (healthScore services)) as Hh.
    destruct (predictionFires services), (anomalyFires services),
      (capacityFires services), (healthFires services); simpl;
      try (exfalso; apply Hn; repeat split; reflexivity);
      repeat (rewrite filter_cons; simpl);
      repeat case_decide; try congruence; try discriminate; reflexivity. }
  split; [|split]; [|exact Hyes|exact Hno].
  split.
  - intros Hlen. destruct (noRuleFires_dec services) as [H|H]; [exact H|].
    rewrite (Hno H) in Hlen. discriminate.
  - intros H. rewrite (Hyes H). reflexivity.
Qed.

Lemma fallback_iff_no_rule_fires_witness :
  generateAIInsights calm = [optimalInsight].
Proof.
  apply (proj1 (proj2 (fallback_iff_no_rule_fires calm))).
  repeat split; vm_compute; reflexivity.
Defined.

(** With no service at all every mean is [0 / 0]: no threshold rule fires and
    the fallback does. *)
Example no_service_insights : generateAIInsights [] = [optimalInsight].
Proof. reflexivity. Qed.

(** *** The prediction rule *)

Lemma foldl_Qplus {A} (f : A → Q) (l : list A) (a : Q) :
  (foldl (λ acc x, acc + f x) a l == a + foldr Qplus 0 (f <$> l))%Q.
Proof.
  revert a. induction l as [|x l IH]; intros a; csimpl.
  - lra.
  - rewrite IH. lra.
Qed.

Lemma avgResponseTime_mean services :
  services ≠ [] →
  ∃ q, avgResponseTime services = JS.Fin q ∧ (q == mean (responseTime <$> services))%Q.
Proof.
  intros Hne. unfold avgResponseTime. rewrite div_len by exact Hne.
  eexists. split; [reflexivity|].
  unfold mean, JS.len. rewrite length_fmap, foldl_Qplus.
  apply Qdiv_comp; [lra | reflexivity].
Qed.

Lemma predictionFires_mean services :
  predictionFires services = true ↔
  services ≠ [] ∧ (60 < mean (responseTime <$> services))%Q.
Proof.
  unfold predictionFires. destruct services as [|s l].
  - split; [discriminate | intros [H _]; done].
  - destruct (avgResponseTime_mean (s :: l)) as (q & Hq & Hm); [done|].
    rewrite Hq. simpl JS.gt. rewrite Qltb_lt, Hm. split; [split; [done|]|]; tauto.
Qed.




End RuleEngine.

(** ** The poll cycle *)

Section PollCycle.

Import Poller.

Lemma pollFrom_eq get i configs acc :
  pollFrom get i configs acc =
    acc ++ imap (λ k config,
                   pollOne config (get (i + k)%nat (Config.url config +:+ "/health")))
                configs.
Proof.
  revert i acc. induction configs as [|config rest IH]; intros i acc; simpl.
  - by rewrite app_nil_r.
  - rewrite IH, <- app_assoc. simpl. rewrite Nat.add_0_r.
    do 2 f_equal. apply imap_ext. intros k x _. simpl.
    by replace (i + S k)%nat with (S (i + k)) by lia.
Qed.

Lemma poll_lookup get configs i config :
  configs !! i = Some config →
  poll get configs !! i
    = Some (pollOne config (get i (Config.url config +:+ "/health"))).
Proof.
  intros Hi. unfold poll. rewrite pollFrom_eq. simpl.
  rewrite list_lookup_imap, Hi. reflexivity.
Qed.

Lemma poll_length get configs : length (poll get configs) = length configs.
Proof. unfold poll. rewrite pollFrom_eq. simpl. apply length_imap. Qed.

(** C5. A poll cycle yields one record per configured service, in the order
    of the configuration, with the name, address and description of its
    configuration.  The record of a service whose request fails (the request
    is rejected, or its response carries no object, which throws inside the
    same [try]) has status [error], uptime "N/A", error rate 1, response time
    0 and zeroed metrics.  The record of any other service is the
    normalization of its own response: each field is the one the response
    gives, or its default when the response does not give it ([healthy],
    "99.99%", 0, 0, zeroed metrics).  Either way the record of a service
    depends on its own request only: changing the outcome of the other
    requests leaves it as it is. *)
Theorem poll_isolates_failures (get : nat → string → Outcome)
    (configs : list Config.t) :
  length (poll get configs) = length configs ∧
  ∀ i config, configs !! i = Some config →
    ∃ s, poll get configs !! i = Some s ∧
         name s = Config.name config ∧
         url s = Config.url config ∧
         description s = Config.description config ∧
         match get i (Config.url config +:+ "/health") with
         | Rejected | ResolvedNull =>
             status s = error ∧ uptime s = "N/A" ∧ errorRate s = 1%Q ∧
             responseTime s = 0%Q ∧ metrics s = mkMetrics 0 0 0 0
         | Resolved data =>
             status s = match Payload.status data with
                        | Some st => st
                        | None => healthy
                        end ∧
             uptime s = match Payload.uptime data with
                        | Some u => if String.eqb u "" then "99.99%" else u
                        | None => "99.99%"
                        end ∧
             responseTime s = match Payload.responseTime data with
                              | Some t => t
                              | None => 0%Q
                              end ∧
             errorRate s = match Payload.errorRate data with
                           | Some e => e
                           | None => 0%Q
                           end ∧
             metrics s = match Payload.metrics data with
                         | Some m => m
                         | None => mkMetrics 0 0 0 0
                         end
         end ∧
         ∀ get' : nat → string → Outcome,
           get' i (Config.url config +:+ "/health")
             = get i (Config.url config +:+ "/health") →
           poll get' configs !! i = Some s.
Proof.
  split; [apply poll_length|].
  intros i config Hi. eexists. split; [apply poll_lookup, Hi|].
  split; [|split; [|split; [|split]]].
  - destruct (get i _); reflexivity.
  - destruct (get i _); reflexivity.
  - destruct (get i _); reflexivity.
  - destruct (get i _) as [data| |]; [|repeat split; reflexivity..].
    destruct data as [st up rt er ms].
    destruct st, up, rt, er, ms; repeat split; reflexivity.
  - intros get' Heq. rewrite (poll_lookup get' _ _ _ Hi), Heq. reflexivity.
Qed.

Lemma poll_isolates_failures_witness :
  (∃ s, poll oneTimesOut serviceConfigs !! 1%nat = Some s ∧
        name s = "Investments Service" ∧
        url s = "http://localhost:8002" ∧
        description s = "Personalized investment tracking and portfolio management" ∧
        (status s = error ∧ uptime s = "N/A" ∧ errorRate s = 1%Q ∧
         responseTime s = 0%Q ∧ metrics s = mkMetrics 0 0 0 0) ∧
        ∀ get' : nat → string → Outcome,
          get' 1%nat "http://localhost:8002/health" = Rejected →
          poll get' serviceConfigs !! 1%nat = Some s) ∧
  (∃ s, poll oneTimesOut serviceConfigs !! 2%nat = Some s ∧
        name s = "Accounts Service" ∧
        url s = "http://localhost:8003" ∧
        description s = "Automated account services and customer management" ∧
        (status s = warning ∧ uptime s = "99.5%" ∧ responseTime s = 52%Q ∧
         errorRate s = 0.02%Q ∧ metrics s = mkMetrics 30 45 60 20) ∧
        ∀ get' : nat → string → Outcome,
          get' 2%nat "http://localhost:8003/health"
            = oneTimesOut 2%nat "http://localhost:8003/health" →
          poll get' serviceConfigs !! 2%nat = Some s).
Proof.
  split.
  - exact (proj2 (poll_isolates_failures oneTimesOut serviceConfigs) 1%nat
             (Config.mk "Investments Service" "http://localhost:8002"
                "Personalized investment tracking and portfolio management")
             eq_refl).
  - exact (proj2 (poll_isolates_failures oneTimesOut serviceConfigs) 2%nat
             (Config.mk "Accounts Service" "http://localhost:8003"
                "Automated account services and customer management")
             eq_refl).
Defined.

(** A response that carries no object is recorded like a failed request. *)
Example poll_null_body :
  status <$> poll (λ _ _, ResolvedNull) serviceConfigs = [error; error; error] ∧
  poll (λ _ _, ResolvedNull) serviceConfigs = poll (λ _ _, Rejected) serviceConfigs.
Proof. split; reflexivity. Qed.

Example poll_oneTimesOut :
  status <$> poll oneTimesOut serviceConfigs = [healthy; error; warning] ∧
  errorRate <$> poll oneTimesOut serviceConfigs = [0%Q; 1%Q; 0.02%Q].
Proof. split; reflexivity. Qed.

(** *** The overview *)

Lemma sum_bounds (xs : list Q) :
  (∀ x, x ∈ xs → (0 <= x <= 1)%Q) →
  (0 <= foldr Qplus 0 xs <= inject_Z (Z.of_nat (length xs)))%Q.
Proof.
  induction xs as [|x xs IH]; intros H.
  - split; apply Qle_refl.
  - assert (Hx : (0 <= x <= 1)%Q) by (apply H; left).
    assert (Hxs : (0 <= foldr Qplus 0 xs <= inject_Z (Z.of_nat (length xs)))%Q).
    { apply IH. intros y Hy. apply H. by right. }
    change (length (x :: xs)) with (S (length xs)).
    rewrite Nat2Z.inj_succ. unfold Z.succ. rewrite inject_Z_plus.
    simpl foldr. change (inject_Z 1) with 1%Q. lra.
Qed.

Lemma mean_bounds (xs : list Q) :
  xs ≠ [] → (∀ x, x ∈ xs → (0 <= x <= 1)%Q) → (0 <= mean xs <= 1)%Q.
Proof.
  intros Hne H. pose proof (sum_bounds xs H) as [Hlo Hhi].
  pose proof (len_pos xs Hne) as Hpos. unfold JS.len in Hpos.
  unfold mean. split.
  - apply Qle_shift_div_l; [exact Hpos | lra].
  - apply Qle_shift_div_r; [exact Hpos | lra].
Qed.

Lemma aggregate_errorRate newServices :
  newServices ≠ [] →
  ∃ q, Overview.errorRate (aggregate newServices) = JS.Fin q ∧
       (q == mean (errorRate <$> newServices))%Q.
Proof.
  intros Hne. unfold aggregate. simpl. rewrite div_len by exact Hne.
  eexists. split; [reflexivity|].
  unfold mean, JS.len. rewrite length_fmap, foldl_Qplus.
  apply Qdiv_comp; [lra | reflexivity].
Qed.

(** C2, as stated, fails on the empty list: the error rate of the overview is
    [0 / 0], which is [NaN]: not a number of [0, 1], and the overview is not
    the all-zero one. *)
Lemma empty_overview_errorRate_NaN :
  aggregate [] = Overview.mk 0 0 0 0 0 JS.NaN ∧
  snd (fetchServiceHealth (λ _ _, Rejected) []) = Overview.mk 0 0 0 0 0 JS.NaN ∧
  aggregate [] ≠ Overview.mk 0 0 0 0 0 (JS.Fin 0) ∧
  ¬ ∃ q, Overview.errorRate (aggregate []) = JS.Fin q ∧ (0 <= q <= 1)%Q.
Proof.
  split; [reflexivity|]. split; [reflexivity|]. split.
  - intros H. discriminate H.
  - intros (q & H & _). discriminate H.
Qed.

(** C2, amended.  For every list of service records that is not empty the
    error rate of the overview is the arithmetic mean of the records' error
    rates, and it lies in [0, 1] when each of them does.  On the empty list
    the aggregation does not fail: five fields are 0 and the error rate is
    [NaN]. *)
Theorem overview_errorRate_mean (newServices : list ServiceStatus) :
  (newServices ≠ [] →
     ∃ q, Overview.errorRate (aggregate newServices) = JS.Fin q ∧
          (q == mean (errorRate <$> newServices))%Q ∧
          ((∀ s, s ∈ newServices → (0 <= errorRate s <= 1)%Q) →
           (0 <= q <= 1)%Q)) ∧
  (newServices = [] → aggregate newServices = Overview.mk 0 0 0 0 0 JS.NaN).
Proof.
  split.
  - intros Hne. destruct (aggregate_errorRate newServices Hne) as (q & Hq & Hm).
    exists q. split; [exact Hq|]. split; [exact Hm|].
    intros Hall. rewrite Hm. apply mean_bounds.
    + destruct newServices; [done|]. discriminate.
    + intros x Hx. apply list_elem_of_fmap in Hx as (s & -> & Hs). by apply Hall.
  - intros ->. reflexivity.
Qed.

Lemma overview_errorRate_mean_witness :
  ∃ q, Overview.errorRate (aggregate oneFailing) = JS.Fin q ∧
       (q == mean (errorRate <$> oneFailing))%Q ∧
       ((∀ s, s ∈ oneFailing → (0 <= errorRate s <= 1)%Q) → (0 <= q <= 1)%Q).
Proof.
  apply (proj1 (overview_errorRate_mean oneFailing)). discriminate.
Defined.

Example oneFailing_errorRate :
  ∃ q, Overview.errorRate (aggregate oneFailing) = JS.Fin q ∧ (q == 1 # 30)%Q.
Proof. eexists. split; [reflexivity|]. vm_compute. reflexivity. Qed.

(** *** The fields looked up by name *)

Lemma rpsOf_first n l s :
  firstNamed n l s → rpsOf n l = requests_per_second (metrics s).
Proof.
  intros (l1 & l2 & -> & Hn & Hl1). unfold rpsOf.
  induction l1 as [|x l1 IH]; simpl.
  - rewrite <- Hn, String.eqb_refl. reflexivity.
  - destruct (String.eqb_spec (name x) n) as [E|E].
    + exfalso. apply (Hl1 x); [left | exact E].
    + apply IH. intros y Hy. apply Hl1. by right.
Qed.

Lemma rpsOf_none n l : (∀ x, x ∈ l → name x ≠ n) → rpsOf n l = 0%Q.
Proof.
  intros Hl. unfold rpsOf. induction l as [|x l IH]; simpl; [reflexivity|].
  destruct (String.eqb_spec (name x) n) as [E|E].
  - exfalso. apply (Hl x); [left | exact E].
  - apply IH. intros y Hy. apply Hl. by right.
Qed.

(** C10. In the overview, [totalAccounts], [portfolioValue] and
    [paymentsProcessed] are the [requests_per_second] of the first record
    named "Accounts Service", "Investments Service" and "Payments Service",
    and 0 when the list holds no record of that name. *)
Theorem overview_fields_by_name (newServices : list ServiceStatus) :
  let o := aggregate newServices in
  (∀ s, firstNamed "Accounts Service" newServices s →
        Overview.totalAccounts o = requests_per_second (metrics s)) ∧
  ((∀ x, x ∈ newServices → name x ≠ "Accounts Service") →
        Overview.totalAccounts o = 0%Q) ∧
  (∀ s, firstNamed "Investments Service" newServices s →
        Overview.portfolioValue o = requests_per_second (metrics s)) ∧
  ((∀ x, x ∈ newServices → name x ≠ "Investments Service") →
        Overview.portfolioValue o = 0%Q) ∧
  (∀ s, firstNamed "Payments Service" newServices s →
        Overview.paymentsProcessed o = requests_per_second (metrics s)) ∧
  ((∀ x, x ∈ newServices → name x ≠ "Payments Service") →
        Overview.paymentsProcessed o = 0%Q).
Proof.
  simpl. repeat split;
    first [ intros s Hs; by apply rpsOf_first | intros H; by apply rpsOf_none ].
Qed.

Lemma overview_fields_by_name_witness :
  Overview.totalAccounts (aggregate calm) = 60%Q ∧
  Overview.paymentsProcessed (aggregate (take 2 (drop 1 calm))) = 0%Q.
Proof.
  split.
  - apply (proj1 (overview_fields_by_name calm)
             (mkService "Accounts Service" healthy "http://localhost:8003" "99.5%"
                50 0.01 "Automated account services and customer management"
                (mkMetrics 30 45 60 20))).
    exists (take 2 calm), []. split; [reflexivity|]. split; [reflexivity|].
    intros x Hx. unfold calm in Hx. simpl in Hx.
    repeat (apply elem_of_cons in Hx as [->|Hx]; [simpl; discriminate|]).
    by apply not_elem_of_nil in Hx.
  - apply (proj2 (proj2 (proj2 (proj2 (proj2
             (overview_fields_by_name (take 2 (drop 1 calm)))))))).
    intros x Hx. unfold calm in Hx. simpl in Hx.
    repeat (apply elem_of_cons in Hx as [->|Hx]; [simpl; discriminate|]).
    by apply not_elem_of_nil in Hx.
Defined.

End PollCycle.

(** ** The rolling metric series *)

Section MetricSeries.

Import Buffer.

Lemma sliceLast_length {A} n (a : list A) :
  length (sliceLast n a) = Nat.min n (length a).
Proof. unfold sliceLast. rewrite length_drop. lia. Qed.

Lemma sliceLast_short {A} n (a : list A) : length a ≤ n → sliceLast n a = a.
Proof.
  intros H. unfold sliceLast. by replace (length a - n)%nat with 0%nat by lia.
Qed.

Lemma sliceLast_app {A} n (a b : list A) :
  sliceLast n (sliceLast n a ++ b) = sliceLast n (a ++ b).
Proof.
  unfold sliceLast at 2.
  rewrite <- (drop_app_le a b) by lia.
  unfold sliceLast. rewrite drop_drop. f_equal.
  rewrite length_drop, !length_app. lia.
Qed.

Lemma push_sliceLast series p : push series p = sliceLast 20 (series ++ [p]).
Proof.
  unfold push. destruct (20 <? length (series ++ [p]))%nat eqn:E; [reflexivity|].
  apply Nat.ltb_ge in E. by rewrite sliceLast_short.
Qed.

Lemma push_length series p : length (push series p) ≤ 20.
Proof. rewrite push_sliceLast, sliceLast_length. lia. Qed.

Lemma foldl_push series0 pushed :
  foldl push (sliceLast 20 series0) pushed = sliceLast 20 (series0 ++ pushed).
Proof.
  revert series0. induction pushed as [|p pushed IH]; intros series0; simpl.
  - by rewrite app_nil_r.
  - rewrite push_sliceLast, sliceLast_app, IH, <- app_assoc. reflexivity.
Qed.

Lemma turn_lookup now r m metricType :
  turn now r m metricType !! metricType
    = Some (push (default [] (m !! metricType)) (point metricType now r)).
Proof.
  unfold turn, push.
  assert (Hd : default [] ((match m !! metricType with
                            | None => <[metricType := []]> m
                            | Some _ => m
                            end) !! metricType) = default [] (m !! metricType)).
  { destruct (m !! metricType) eqn:E; [by rewrite E|]. by rewrite lookup_insert_eq. }
  rewrite Hd.
  destruct (20 <? _)%nat; by rewrite lookup_insert_eq.
Qed.

Lemma turn_lookup_ne now r m metricType k :
  k ≠ metricType → turn now r m metricType !! k = m !! k.
Proof.
  intros Hk. unfold turn.
  assert (Hm : (match m !! metricType with
                | None => <[metricType := []]> m
                | Some _ => m
                end) !! k = m !! k).
  { destruct (m !! metricType); [reflexivity|]. by rewrite lookup_insert_ne. }
  destruct (20 <? _)%nat; rewrite ?lookup_insert_ne by done; exact Hm.
Qed.

Lemma forEachFrom_lookup_notin now random i types m k :
  k ∉ types → forEachFrom now random i types m !! k = m !! k.
Proof.
  revert i m. induction types as [|t types IH]; intros i m Hk; simpl; [done|].
  apply not_elem_of_cons in Hk as [Hne Hk].
  rewrite IH by done. by apply turn_lookup_ne.
Qed.

Lemma forEachFrom_lookup now random i types m j metricType :
  NoDup types → types !! j = Some metricType →
  forEachFrom now random i types m !! metricType
    = Some (push (default [] (m !! metricType))
              (point metricType now (random (i + j)%nat))).
Proof.
  revert i m j. induction types as [|t types IH]; intros i m j Hnd Hj; [done|].
  apply NoDup_cons in Hnd as [Hnotin Hnd]. simpl. destruct j as [|j].
  - injection Hj as ->. rewrite forEachFrom_lookup_notin by done.
    rewrite Nat.add_0_r. apply turn_lookup.
  - simpl in Hj. rewrite (IH (S i) _ j Hnd Hj).
    assert (Hne : metricType ≠ t).
    { intros ->. apply Hnotin. by eapply list_elem_of_lookup_2. }
    rewrite turn_lookup_ne by done.
    by replace (S i + j)%nat with (i + S j)%nat by lia.
Qed.

Lemma metricTypes_NoDup : NoDup metricTypes.
Proof.
  unfold metricTypes.
  repeat (apply NoDup_cons; split;
          [rewrite ?elem_of_cons, elem_of_nil; intuition discriminate|]).
  apply NoDup_nil_2.
Qed.

(** What [generateMetricsData] does to the series of a tracked metric: one
    [push] of the point drawn for it. *)
Lemma generateMetricsData_series metrics now random j metricType :
  metricTypes !! j = Some metricType →
  generateMetricsData metrics now random !! metricType
    = Some (push (default [] (metrics !! metricType))
              (point metricType now (random j))).
Proof.
  intros Hj. unfold generateMetricsData.
  by rewrite (forEachFrom_lookup _ _ 0 _ _ j metricType metricTypes_NoDup Hj).
Qed.

(** The window the body of a run attempts ("Keep only last 20 data
    points"), on a series that is pushed onto again and again: a series of
    at most 20 points stays at most 20 points long; it is always the last 20
    points of what it held followed by what was pushed, in push order; so
    after 20 + k pushes it is exactly the last 20 points pushed.  A run of
    [generateMetricsData] is one such push on each tracked series of the
    object it reads. *)
Theorem series_fifo (series0 pushed : list MetricData) :
  length series0 ≤ 20 →
  length (foldl push series0 pushed) ≤ 20 ∧
  foldl push series0 pushed = sliceLast 20 (series0 ++ pushed) ∧
  (∀ k, length pushed = (20 + k)%nat → foldl push series0 pushed = drop k pushed) ∧
  (∀ metrics now random j metricType,
     metricTypes !! j = Some metricType →
     generateMetricsData metrics now random !! metricType
       = Some (push (default [] (metrics !! metricType))
                 (point metricType now (random j)))).
Proof.
  intros H0.
  assert (Heq : foldl push series0 pushed = sliceLast 20 (series0 ++ pushed)).
  { rewrite <- foldl_push. by rewrite sliceLast_short. }
  split; [|split; [exact Heq|split]].
  - rewrite Heq, sliceLast_length. lia.
  - intros k Hk. rewrite Heq. unfold sliceLast.
    rewrite length_app, Hk.
    replace (length series0 + (20 + k) - 20)%nat with (length series0 + k)%nat by lia.
    apply drop_app_add.
  - intros. by apply generateMetricsData_series.
Qed.

Lemma series_fifo_witness :
  length (foldl push [] (samples 23)) ≤ 20 ∧
  foldl push [] (samples 23) = drop 3 (samples 23).
Proof.
  assert (H0 : length (@nil MetricData) ≤ 20) by (simpl; lia).
  split.
  - exact (proj1 (series_fifo [] (samples 23) H0)).
  - exact (proj1 (proj2 (proj2 (series_fifo [] (samples 23) H0))) 3%nat eq_refl).
Defined.

Example two_runs :
  timestamp <$>
    default []
      (generateMetricsData (generateMetricsData ∅ "t1" (λ _, 0.5%Q)) "t2"
         (λ _, 0.5%Q) !! "cpuUsage")
  = ["t1"; "t2"].
Proof.
  rewrite !(generateMetricsData_series _ _ _ 4 "cpuUsage" eq_refl).
  rewrite lookup_empty. reflexivity.
Qed.

(** *** What the installed callback stores *)

Lemma installedMetrics_snoc runs now random :
  installedMetrics (runs ++ [(now, random)]) = generateMetricsData ∅ now random.
Proof. unfold installedMetrics. by rewrite foldl_app. Qed.

Lemma cpuUsage_single_point runs now random :
  installedMetrics (runs ++ [(now, random)]) !! "cpuUsage"
    = Some [point "cpuUsage" now (random 4)].
Proof.
  rewrite installedMetrics_snoc.
  rewrite (generateMetricsData_series _ _ _ 4 "cpuUsage" eq_refl), lookup_empty.
  reflexivity.
Qed.

(** C3. The code misses the window.  Whatever ran before, after a run of the
    installed callback every tracked series holds exactly one point, the one
    that run has drawn: each run starts from the [{}] of the first render,
    so nothing it pushed earlier is there to be kept.  After 25 runs the
    series is one point long, not the last 20 points pushed. *)
Theorem installed_series_single_point (runs : list (string * (nat → Q)))
    (now : string) (random : nat → Q) (j : nat) (k : string) :
  metricTypes !! j = Some k →
  installedMetrics (runs ++ [(now, random)]) !! k
    = Some [point k now (random j)].
Proof.
  intros Hj. rewrite installedMetrics_snoc.
  rewrite (generateMetricsData_series _ _ _ j k Hj), lookup_empty. reflexivity.
Qed.

Lemma installed_series_single_point_witness :
  installedMetrics (ticks 24 ++ [("24", λ _ : nat, 0.5%Q)]) !! "cpuUsage"
    = Some [point "cpuUsage" "24" 0.5].
Proof.
  exact (installed_series_single_point (ticks 24) "24" (λ _, 0.5%Q) 4 "cpuUsage"
           eq_refl).
Defined.

(** Twenty-five ticks: one point stored, where the last 20 pushed are 20. *)
Example installed_25_ticks :
  ticks 25 = ticks 24 ++ [("24", λ _ : nat, 0.5%Q)] ∧
  length (default [] (installedMetrics (ticks 25) !! "cpuUsage")) = 1 ∧
  length (sliceLast 20 ((λ run, point "cpuUsage" run.1 (run.2 4)) <$> ticks 25)) = 20.
Proof.
  split; [reflexivity|]. split.
  - change (ticks 25) with (ticks 24 ++ [("24", λ _ : nat, 0.5%Q)]).
    by rewrite (cpuUsage_single_point (ticks 24) "24" (λ _, 0.5%Q)).
  - rewrite sliceLast_length, length_fmap. reflexivity.
Qed.

End MetricSeries.

(** ** The alert list *)

Section AlertList.

Import Alerts.

Lemma pick_in_range {A} (u : A) (xs : list A) (r : Q) :
  (0 <= r < 1)%Q → xs ≠ [] → pick u xs r ∈ xs.
Proof.
  intros [Hlo Hhi] Hne. unfold pick. apply list_elem_of_In, nth_In.
  pose proof (len_pos xs Hne) as Hpos.
  assert (H0 : (0 <= Qfloor (r * JS.len xs))%Z).
  { change 0%Z with (Qfloor 0). apply Qfloor_resp_le. nra. }
  assert (H1 : (Qfloor (r * JS.len xs) < Z.of_nat (length xs))%Z).
  { rewrite Zlt_Qlt. eapply Qle_lt_trans; [apply Qfloor_le|].
    fold (JS.len xs). nra. }
  lia.
Qed.

Lemma imap_flipped (f : nat → Alert → Alert) (l : list Alert) :
  (∀ i a, flipped a (f i a)) → Forall2 flipped l (imap f l).
Proof.
  revert f. induction l as [|a l IH]; intros f Hf; simpl; constructor.
  - apply Hf.
  - apply IH. intros i b. apply Hf.
Qed.

Lemma resolveSome_flipped c l : Forall2 flipped l (resolveSome c l).
Proof.
  apply imap_flipped. intros i a. unfold flipped.
  destruct (negb (resolved a) && JS.Qltb 0.98 (resolve c i)); auto.
Qed.

Lemma resolveSome_quiet c l : quiet c → resolveSome c l = l.
Proof.
  intros Hq. unfold resolveSome.
  rewrite <- (imap_ext (λ _ a, a)).
  - induction l as [|a l IH]; simpl; [reflexivity|]. f_equal. exact IH.
  - intros i a _. simpl.
    assert (E : JS.Qltb 0.98 (resolve c i) = false) by apply Qltb_ge, Hq.
    rewrite E, andb_false_r. reflexivity.
Qed.

(** Marking alerts resolved never adds an unresolved one. *)
Lemma flipped_count (P : Alert → Prop) `{∀ a, Decision (P a)} l l' :
  (∀ a, P (markResolved a) → P a) →
  Forall2 flipped l l' →
  length (filter P (unresolved l')) ≤ length (filter P (unresolved l)).
Proof.
  intros HP Hf. unfold unresolved.
  induction Hf as [|a b l l' Hab Hf IH]; [done|].
  rewrite !(filter_cons (λ a, resolved a = false)).
  destruct Hab as [->| ->].
  - case_decide; [|exact IH]. rewrite !(filter_cons P).
    case_decide; simpl; lia.
  - rewrite decide_False by (simpl; discriminate).
    case_decide; [|exact IH]. rewrite (filter_cons P).
    case_decide; simpl; lia.
Qed.

Lemma flipped_activeCount l l' :
  Forall2 flipped l l' → activeCount l' ≤ activeCount l.
Proof.
  intros Hf. unfold activeCount, unresolved.
  induction Hf as [|a b l l' Hab Hf IH]; [done|].
  rewrite !(filter_cons (λ a, resolved a = false)).
  destruct Hab as [->| ->].
  - case_decide; simpl; lia.
  - rewrite decide_False by (simpl; discriminate).
    case_decide; simpl; lia.
Qed.

Lemma unresolved_idemp alerts : unresolved (unresolved alerts) = unresolved alerts.
Proof.
  unfold unresolved. induction alerts as [|a l IH]; [done|].
  rewrite (filter_cons _ a l). case_decide; [|exact IH].
  rewrite filter_cons, decide_True by done. by rewrite IH.
Qed.

Lemma unresolved_app l1 l2 : unresolved (l1 ++ l2) = unresolved l1 ++ unresolved l2.
Proof. apply filter_app. Qed.

Lemma unresolved_length alerts : activeCount alerts ≤ length alerts.
Proof. apply length_filter. Qed.

(** The run, as the list it builds before it resolves some of it. *)
Lemma generateRealtimeData_eq alerts c :
  generateRealtimeData alerts c =
    resolveSome c
      (unresolved alerts ++
       if fires c (unresolved alerts) then [newAlert c] else []).
Proof.
  unfold generateRealtimeData. fold (unresolved alerts).
  destruct (fires c (unresolved alerts)); by rewrite ?app_nil_r.
Qed.

Lemma fires_capacity c alerts :
  5 ≤ activeCount alerts → fires c (unresolved alerts) = false.
Proof.
  intros H. unfold fires. apply andb_false_iff. right.
  apply Nat.ltb_ge. exact H.
Qed.

Lemma generateRealtimeData_length alerts c :
  length (generateRealtimeData alerts c) =
    (activeCount alerts + if fires c (unresolved alerts) then 1 else 0)%nat.
Proof.
  rewrite generateRealtimeData_eq.
  rewrite <- (Forall2_length _ _ _ (resolveSome_flipped c _)).
  rewrite length_app. unfold activeCount.
  by destruct (fires c (unresolved alerts)).
Qed.

Lemma reachable_length alerts : reachable alerts → length alerts ≤ 5.
Proof.
  induction 1 as [|alerts c Hr IH]; [simpl; lia|].
  rewrite generateRealtimeData_length.
  pose proof (unresolved_length alerts).
  destruct (fires c (unresolved alerts)) eqn:E; [|lia].
  unfold fires in E. apply andb_true_iff in E as [_ E].
  apply Nat.ltb_lt in E. unfold activeCount. lia.
Qed.

Lemma reachable_activeCount alerts : reachable alerts → activeCount alerts ≤ 5.
Proof.
  intros Hr. pose proof (reachable_length alerts Hr).
  pose proof (unresolved_length alerts). lia.
Qed.

Lemma reachable_foldl alerts cs :
  reachable alerts → reachable (foldl generateRealtimeData alerts cs).
Proof.
  revert alerts. induction cs as [|c cs IH]; intros alerts Hr; simpl; [exact Hr|].
  apply IH. by constructor.
Qed.

(** *** Capacity *)

Lemma fireAt_quiet n : quiet (fireAt n).
Proof. intros i. simpl. unfold Qle. simpl. lia. Qed.

(** C7. In every alert set reached from the empty one the unresolved alerts
    number at most 5.  When 5 alerts are unresolved and the trigger of a run
    fires, no alert is added: the run's result is the 5 unresolved alerts,
    each as it was or marked resolved by that run, so the unresolved count
    does not exceed 5, and stays 5 when the run resolves nothing. *)
Theorem alert_capacity :
  (∀ alerts, reachable alerts → activeCount alerts ≤ 5) ∧
  (∀ alerts c, activeCount alerts = 5%nat → (0.95 < trigger c)%Q →
     Forall2 flipped (unresolved alerts) (generateRealtimeData alerts c) ∧
     activeCount (generateRealtimeData alerts c) ≤ 5 ∧
     (quiet c →
        generateRealtimeData alerts c = unresolved alerts ∧
        activeCount (generateRealtimeData alerts c) = 5%nat)).
Proof.
  split; [apply reachable_activeCount|].
  intros alerts c H5 _.
  assert (Heq : generateRealtimeData alerts c = resolveSome c (unresolved alerts)).
  { rewrite generateRealtimeData_eq, fires_capacity by lia. by rewrite app_nil_r. }
  assert (Hf : Forall2 flipped (unresolved alerts) (generateRealtimeData alerts c)).
  { rewrite Heq. apply resolveSome_flipped. }
  assert (Hid : activeCount (unresolved alerts) = activeCount alerts).
  { unfold activeCount. by rewrite unresolved_idemp. }
  split; [exact Hf|]. split.
  - apply flipped_activeCount in Hf. lia.
  - intros Hq. rewrite Heq, resolveSome_quiet by exact Hq. split; [reflexivity|lia].
Qed.

Lemma alert_capacity_witness :
  activeCount fiveAlerts ≤ 5 ∧
  generateRealtimeData fiveAlerts (fireAt 5) = unresolved fiveAlerts ∧
  activeCount (generateRealtimeData fiveAlerts (fireAt 5)) = 5%nat.
Proof.
  split.
  - apply (proj1 alert_capacity). apply reachable_foldl. constructor.
  - apply (proj2 alert_capacity fiveAlerts (fireAt 5)).
    + vm_compute. reflexivity.
    + vm_compute. reflexivity.
    + apply fireAt_quiet.
Defined.

(** *** Deduplication *)

(** The body of a run makes no check for duplicates: fed the list a first
    firing run returns, a second firing run whose draws pick the same service
    and kind returns two unresolved alerts with the same key.  The page never
    feeds a run the result of another (see [installedAlerts]). *)
Lemma duplicate_unresolved_alert :
  let alerts1 := generateRealtimeData [] (fireAt 0) in
  let alerts2 := generateRealtimeData alerts1 (fireAt 1) in
  reachable alerts2 ∧
  alerts1 = [newAlert (fireAt 0)] ∧
  alerts2 = [newAlert (fireAt 0); newAlert (fireAt 1)] ∧
  key (newAlert (fireAt 0)) = ("Payments Service", warning) ∧
  key (newAlert (fireAt 1)) = ("Payments Service", warning) ∧
  unresolvedWithKey ("Payments Service", warning) alerts2 = 2%nat.
Proof.
  simpl. split; [do 2 constructor; constructor|].
  repeat split; vm_compute; reflexivity.
Qed.

Lemma key_markResolved a : key (markResolved a) = key a.
Proof. reflexivity. Qed.

Lemma unresolvedWithKey_app k l1 l2 :
  unresolvedWithKey k (l1 ++ l2)
    = (unresolvedWithKey k l1 + unresolvedWithKey k l2)%nat.
Proof.
  unfold unresolvedWithKey. by rewrite unresolved_app, filter_app, length_app.
Qed.

Lemma unresolvedWithKey_unresolved k alerts :
  unresolvedWithKey k (unresolved alerts) = unresolvedWithKey k alerts.
Proof. unfold unresolvedWithKey. by rewrite unresolved_idemp. Qed.

Lemma unresolvedWithKey_new k c :
  unresolvedWithKey k [newAlert c] = if decide (key (newAlert c) = k) then 1%nat else 0%nat.
Proof.
  unfold unresolvedWithKey, unresolved.
  rewrite filter_cons, decide_True by reflexivity.
  rewrite filter_cons. by case_decide.
Qed.

Lemma unresolvedWithKey_le k alerts : unresolvedWithKey k alerts ≤ activeCount alerts.
Proof. apply length_filter. Qed.

(** A run, on any list it may be given: the service and kind of the
    alert it adds are drawn without regard to the alerts held.  For every key
    a run adds at most one unresolved alert of that key, and none unless its
    trigger fires with fewer than 5 unresolved alerts held and the drawn key
    is that key; when it does and the run resolves nothing, the count of the
    drawn key grows by one whatever it was.  In every alert set reached from
    the empty one the unresolved alerts of a key number at most 5. *)
Theorem no_deduplication (alerts : list Alert) (c : Cycle)
    (k : string * AlertType) :
  unresolvedWithKey k (generateRealtimeData alerts c)
    ≤ unresolvedWithKey k alerts + 1 ∧
  (fires c (unresolved alerts) = false ∨ key (newAlert c) ≠ k →
     unresolvedWithKey k (generateRealtimeData alerts c)
       ≤ unresolvedWithKey k alerts) ∧
  (fires c (unresolved alerts) = true → quiet c → key (newAlert c) = k →
     unresolvedWithKey k (generateRealtimeData alerts c)
       = (unresolvedWithKey k alerts + 1)%nat) ∧
  (reachable alerts → unresolvedWithKey k alerts ≤ 5).
Proof.
  assert (Hle : unresolvedWithKey k (generateRealtimeData alerts c)
                ≤ unresolvedWithKey k alerts
                  + unresolvedWithKey k
                      (if fires c (unresolved alerts) then [newAlert c] else [])).
  { rewrite generateRealtimeData_eq.
    etransitivity.
    - apply (flipped_count (λ a, key a = k)); [|apply resolveSome_flipped].
      intros a. by rewrite key_markResolved.
    - fold (unresolvedWithKey k
              (unresolved alerts ++
               (if fires c (unresolved alerts) then [newAlert c] else []))).
      by rewrite unresolvedWithKey_app, unresolvedWithKey_unresolved. }
  split; [|split; [|split]].
  - destruct (fires c (unresolved alerts)).
    + rewrite unresolvedWithKey_new in Hle. case_decide; lia.
    + change (unresolvedWithKey k []) with 0%nat in Hle. lia.
  - intros [E|E].
    + rewrite E in Hle. change (unresolvedWithKey k []) with 0%nat in Hle. lia.
    + destruct (fires c (unresolved alerts)).
      * rewrite unresolvedWithKey_new, decide_False in Hle by exact E. lia.
      * change (unresolvedWithKey k []) with 0%nat in Hle. lia.
  - intros E Hq Hk.
    rewrite generateRealtimeData_eq, E, resolveSome_quiet by exact Hq.
    rewrite unresolvedWithKey_app, unresolvedWithKey_unresolved,
      unresolvedWithKey_new, decide_True by exact Hk.
    reflexivity.
  - intros Hr. pose proof (unresolvedWithKey_le k alerts).
    pose proof (reachable_activeCount alerts Hr). lia.
Qed.

Lemma no_deduplication_witness :
  unresolvedWithKey ("Payments Service", warning)
    (generateRealtimeData [newAlert (fireAt 0)] (fireAt 1))
  = (unresolvedWithKey ("Payments Service", warning) [newAlert (fireAt 0)] + 1)%nat.
Proof.
  apply (proj1 (proj2 (proj2
           (no_deduplication [newAlert (fireAt 0)] (fireAt 1)
              ("Payments Service", warning))))).
  - vm_compute. reflexivity.
  - apply fireAt_quiet.
  - vm_compute. reflexivity.
Defined.

(** *** What the installed callback stores *)





(** Two firing runs in a row that pick the same service and kind and
    resolve nothing: the page holds the alert of the second run only. *)
Example two_firing_runs :
  key (newAlert (fireAt 0)) = key (newAlert (fireAt 1)) ∧
  installedAlerts [fireAt 0] = [newAlert (fireAt 0)] ∧
  installedAlerts [fireAt 0; fireAt 1] = [newAlert (fireAt 1)].
Proof. repeat split; vm_compute; reflexivity. Qed.

(** *** What a run keeps *)

(** C8, as stated, fails: an alert resolved by one run is absent after the
    next, with one alert in the list and none unresolved, far from the cap. *)
Lemma resolved_alert_deleted :
  let alerts := generateRealtimeData [] fireAndResolve in
  reachable alerts ∧
  alerts = [markResolved (newAlert fireAndResolve)] ∧
  activeCount alerts = 0%nat ∧
  generateRealtimeData alerts idle = [] ∧
  ¬ ∃ b, b ∈ generateRealtimeData alerts idle ∧
         id b = id (markResolved (newAlert fireAndResolve)).
Proof.
  simpl. split; [do 2 constructor|].
  split; [vm_compute; reflexivity|].
  split; [vm_compute; reflexivity|].
  assert (E : generateRealtimeData (generateRealtimeData [] fireAndResolve) idle = [])
    by (vm_compute; reflexivity).
  split; [exact E|].
  intros (b & Hb & _). rewrite E in Hb. by apply not_elem_of_nil in Hb.
Qed.

Lemma Forall2_flipped_elem l l' a :
  Forall2 flipped l l' → a ∈ l → a ∈ l' ∨ markResolved a ∈ l'.
Proof.
  intros Hf Ha. apply list_elem_of_lookup in Ha as [i Hi].
  destruct (Forall2_lookup_l _ _ _ _ _ Hf Hi) as (b & Hb & [->| ->]).
  - left. by eapply list_elem_of_lookup_2.
  - right. by eapply list_elem_of_lookup_2.
Qed.

(** C8, amended.  A run keeps the unresolved alerts it reads and nothing else
    of what it reads: its result is, in order, the unresolved alerts of the
    list read, followed by the new alert when one is added, each as it was or
    marked resolved by the run.  So every unresolved alert read is still
    present, with the same id, possibly resolved, and every alert read as
    resolved has no place in the result, whatever the number of alerts.  The
    cap of 5 only decides whether an alert is added. *)
Theorem run_keeps_unresolved_only (alerts : list Alert) (c : Cycle) :
  let fresh := if fires c (unresolved alerts) then [newAlert c] else [] in
  Forall2 flipped (unresolved alerts ++ fresh) (generateRealtimeData alerts c) ∧
  length (generateRealtimeData alerts c)
    = (activeCount alerts + length fresh)%nat ∧
  (5 ≤ activeCount alerts → fresh = []) ∧
  (∀ a, a ∈ alerts → resolved a = false →
     a ∈ generateRealtimeData alerts c ∨
     markResolved a ∈ generateRealtimeData alerts c).
Proof.
  intros fresh.
  assert (Hf : Forall2 flipped (unresolved alerts ++ fresh)
                 (generateRealtimeData alerts c)).
  { rewrite generateRealtimeData_eq. apply resolveSome_flipped. }
  split; [exact Hf|]. split; [|split].
  - rewrite generateRealtimeData_length. subst fresh.
    by destruct (fires c (unresolved alerts)).
  - intros H5. subst fresh. by rewrite fires_capacity.
  - intros a Ha Hres. apply (Forall2_flipped_elem _ _ a Hf).
    apply elem_of_app. left. unfold unresolved. by apply list_elem_of_filter.
Qed.

Lemma run_keeps_unresolved_only_witness :
  newAlert (fireAt 0) ∈ generateRealtimeData [newAlert (fireAt 0)] fireAndResolve ∨
  markResolved (newAlert (fireAt 0))
    ∈ generateRealtimeData [newAlert (fireAt 0)] fireAndResolve.
Proof.
  apply (proj2 (proj2 (proj2
           (run_keeps_unresolved_only [newAlert (fireAt 0)] fireAndResolve)))).
  - apply list_elem_of_singleton. reflexivity.
  - reflexivity.
Defined.

(** *** Resolving an alert by its id *)

Lemma resolveAlert_unknown i alerts :
  (∀ a, a ∈ alerts → id a ≠ i) → resolveAlert i alerts = alerts.
Proof.
  intros H. unfold resolveAlert. induction alerts as [|a l IH]; [done|].
  csimpl. destruct (String.eqb_spec (id a) i) as [E|E].
  - exfalso. apply (H a); [left | exact E].
  - f_equal. apply IH. intros b Hb. apply H. by right.
Qed.

Lemma resolveAlert_app i l1 l2 :
  resolveAlert i (l1 ++ l2) = resolveAlert i l1 ++ resolveAlert i l2.
Proof. apply fmap_app. Qed.

Lemma activeCount_app l1 l2 :
  activeCount (l1 ++ l2) = (activeCount l1 + activeCount l2)%nat.
Proof. unfold activeCount. by rewrite unresolved_app, length_app. Qed.

(** C9.  When the alerts have distinct ids and [i] is the id of an unresolved
    alert [a], [resolveAlert i] replaces [a] by [a] marked resolved, leaves
    every other alert as it is, and the active count goes down by one.  When
    no alert has id [i] the list is unchanged. *)
Theorem resolveAlert_round_trip (alerts : list Alert) (i : string) :
  (NoDup (id <$> alerts) →
   ∀ a, a ∈ alerts → id a = i → resolved a = false →
     ∃ l1 l2, alerts = l1 ++ a :: l2 ∧
              resolveAlert i alerts = l1 ++ markResolved a :: l2 ∧
              resolved (markResolved a) = true ∧
              (activeCount (resolveAlert i alerts) + 1)%nat = activeCount alerts) ∧
  ((∀ a, a ∈ alerts → id a ≠ i) → resolveAlert i alerts = alerts).
Proof.
  split; [|apply resolveAlert_unknown].
  intros Hnd a Ha Hid Hres.
  apply list_elem_of_split in Ha as (l1 & l2 & ->).
  rewrite fmap_app, fmap_cons in Hnd.
  apply NoDup_app in Hnd as (_ & H1 & Hnd).
  apply NoDup_cons in Hnd as [H2 _].
  assert (E1 : resolveAlert i l1 = l1).
  { apply resolveAlert_unknown. intros b Hb Hbi.
    apply (H1 (id b)); [by apply list_elem_of_fmap_2|].
    apply elem_of_cons. left. congruence. }
  assert (E2 : resolveAlert i l2 = l2).
  { apply resolveAlert_unknown. intros b Hb Hbi. apply H2.
    rewrite Hid, <- Hbi. by apply list_elem_of_fmap_2. }
  assert (E : resolveAlert i (l1 ++ a :: l2) = l1 ++ markResolved a :: l2).
  { rewrite resolveAlert_app, E1. f_equal.
    change (a :: l2) with ([a] ++ l2). rewrite resolveAlert_app, E2.
    unfold resolveAlert. csimpl. rewrite <- Hid, String.eqb_refl. reflexivity. }
  exists l1, l2. split; [reflexivity|]. split; [exact E|]. split; [reflexivity|].
  rewrite E, !activeCount_app.
  change (markResolved a :: l2) with ([markResolved a] ++ l2).
  change (a :: l2) with ([a] ++ l2). rewrite !activeCount_app.
  assert (Ha1 : activeCount [a] = 1%nat).
  { unfold activeCount, unresolved. by rewrite filter_cons, decide_True. }
  assert (Ha0 : activeCount [markResolved a] = 0%nat) by reflexivity.
  lia.
Qed.

Lemma resolveAlert_round_trip_witness :
  (∃ l1 l2,
     fiveAlerts = l1 ++ newAlert (fireAt 2) :: l2 ∧
     resolveAlert "2" fiveAlerts = l1 ++ markResolved (newAlert (fireAt 2)) :: l2 ∧
     resolved (markResolved (newAlert (fireAt 2))) = true ∧
     (activeCount (resolveAlert "2" fiveAlerts) + 1)%nat = activeCount fiveAlerts) ∧
  resolveAlert "7" fiveAlerts = fiveAlerts.
Proof.
  split.
  - apply (proj1 (resolveAlert_round_trip fiveAlerts "2")).
    + vm_compute.
      repeat (apply NoDup_cons; split;
              [rewrite ?elem_of_cons, elem_of_nil; intuition discriminate|]).
      apply NoDup_nil_2.
    + vm_compute. do 2 right. left.
    + vm_compute. reflexivity.
    + reflexivity.
  - apply (proj2 (resolveAlert_round_trip fiveAlerts "7")).
    intros a Ha. vm_compute in Ha.
    repeat (apply elem_of_cons in Ha as [->|Ha]; [simpl; discriminate|]).
    by apply not_elem_of_nil in Ha.
Defined.

End AlertList.

(** ** More on the rule engine *)

Section RuleEngineMore.

Import AIAnalytics.

Lemma avgErrorRate_mean services :
  services ≠ [] →
  ∃ q, avgErrorRate services = JS.Fin q ∧ (q == mean (errorRate <$> services))%Q.
Proof.
  intros Hne. unfold avgErrorRate. cbv zeta.
  assert (Hne' : errorRate <$> services ≠ []) by (destruct services; done).
  rewrite div_len by exact Hne'.
  eexists. split; [reflexivity|].
  unfold mean, JS.len.
  pose proof (foldl_Qplus (λ x : Q, x) (errorRate <$> services) 0) as H.
  rewrite list_fmap_id in H. rewrite H.
  apply Qdiv_comp; [lra | reflexivity].
Qed.

Lemma anomalyFires_mean services :
  anomalyFires services = true ↔
  services ≠ [] ∧ (0.03 < mean (errorRate <$> services))%Q.
Proof.
  unfold anomalyFires. destruct services as [|s l].
  - split; [discriminate | intros [H _]; done].
  - destruct (avgErrorRate_mean (s :: l)) as (q & Hq & Hm); [done|].
    rewrite Hq. simpl JS.gt. rewrite Qltb_lt, Hm. split; [split; [done|]|]; tauto.
Qed.

Lemma totalConnections_sum services :
  (totalConnections services
   == foldr Qplus 0 ((λ s, active_connections (metrics s)) <$> services))%Q.
Proof. unfold totalConnections. rewrite foldl_Qplus. lra. Qed.

(** The anomaly rule, away from its threshold: the result holds the anomaly
    insight, once, with confidence 0.92 and severity [high], when the list is
    not empty and the mean of the error rates is at least 0.0301; it holds no
    anomaly insight when the list is empty or that mean is at most 0.0299.
    (The rule tests the mean against 0.03; within 0.0001 of it the sum of
    floating-point numbers, whose rounding is not modelled, decides.) *)
Theorem anomaly_rule (services : list ServiceStatus) :
  (services ≠ [] ∧ (0.0301 <= mean (errorRate <$> services))%Q →
     filter (λ i, type i = anomaly) (generateAIInsights services)
       = [anomalyInsight]) ∧
  (services = [] ∨ (mean (errorRate <$> services) <= 0.0299)%Q →
     filter (λ i, type i = anomaly) (generateAIInsights services) = []) ∧
  (confidence anomalyInsight == 0.92)%Q ∧ severity anomalyInsight = high.
Proof.
  split; [|split; [|split; reflexivity]].
  - intros [Hne Hm].
    assert (H : anomalyFires services = true).
    { apply anomalyFires_mean. split; [exact Hne | lra]. }
    rewrite generateAIInsights_eq, H.
    destruct (predictionFires services), (capacityFires services),
      (healthFires services); reflexivity.
  - intros H.
    assert (E : anomalyFires services = false).
    { destruct (anomalyFires services) eqn:E; [|reflexivity].
      apply anomalyFires_mean in E as [Hne Hlt]. destruct H as [->|H]; [done|lra]. }
    rewrite generateAIInsights_eq, E.
    destruct (predictionFires services), (capacityFires services),
      (healthFires services); reflexivity.
Qed.

Lemma anomaly_rule_witness :
  filter (λ i, type i = anomaly) (generateAIInsights oneFailing) = [anomalyInsight] ∧
  filter (λ i, type i = anomaly) (generateAIInsights calm) = [].
Proof.
  split.
  - apply (proj1 (anomaly_rule oneFailing)).
    split; [discriminate | vm_compute; discriminate].
  - apply (proj1 (proj2 (anomaly_rule calm))).
    right. vm_compute. discriminate.
Defined.

(** The capacity rule: the result holds the capacity insight, once, with
    confidence 0.78 and severity [medium], exactly when the active
    connections of the services sum to more than 150. *)
Theorem capacity_rule (services : list ServiceStatus) :
  ((150 < foldr Qplus 0 ((λ s, active_connections (metrics s)) <$> services))%Q →
     filter (λ i, type i = capacity) (generateAIInsights services)
       = [capacityInsight]) ∧
  ((foldr Qplus 0 ((λ s, active_connections (metrics s)) <$> services) <= 150)%Q →
     filter (λ i, type i = capacity) (generateAIInsights services) = []) ∧
  (confidence capacityInsight == 0.78)%Q ∧ severity capacityInsight = medium.
Proof.
  split; [|split; [|split; reflexivity]].
  - intros H. rewrite <- totalConnections_sum in H. apply Qltb_lt in H.
    rewrite generateAIInsights_eq. unfold capacityFires. rewrite H.
    destruct (predictionFires services), (anomalyFires services),
      (healthFires services); reflexivity.
  - intros H. rewrite <- totalConnections_sum in H. apply Qltb_ge in H.
    rewrite generateAIInsights_eq. unfold capacityFires. rewrite H.
    destruct (predictionFires services), (anomalyFires services),
      (healthFires services); reflexivity.
Qed.

Lemma capacity_rule_witness :
  filter (λ i, type i = capacity) (generateAIInsights busy) = [capacityInsight] ∧
  filter (λ i, type i = capacity) (generateAIInsights calm) = [].
Proof.
  split.
  - apply (proj1 (capacity_rule busy)). vm_compute. reflexivity.
  - apply (proj1 (proj2 (capacity_rule calm))). vm_compute. discriminate.
Defined.

(** *** The health rule *)

Lemma filter_length_lt {A} (P : A → Prop) `{∀ x, Decision (P x)} (l : list A) :
  length (filter P l) < length l ↔ ∃ x, x ∈ l ∧ ¬ P x.
Proof.
  induction l as [|x l IH].
  - simpl. split; [lia | intros (x & Hx & _); by apply not_elem_of_nil in Hx].
  - rewrite filter_cons. pose proof (length_filter P l) as Hle.
    case_decide as Hx; simpl.
    + rewrite <- Nat.succ_lt_mono, IH. split.
      * intros (y & Hy & Hny). exists y. split; [by right | exact Hny].
      * intros (y & Hy & Hny). apply elem_of_cons in Hy as [->|Hy]; [done|].
        by exists y.
    + split; [intros _; exists x; split; [left | exact Hx] | lia].
Qed.

(** The share of healthy services, when there is at least one service. *)
Lemma healthScore_ratio services :
  services ≠ [] →
  ∃ q, healthScore services = JS.Fin q ∧
       (q * JS.len services
        == JS.len (filter (λ s, status s = healthy) services))%Q.
Proof.
  intros Hne. unfold healthScore. cbv zeta. rewrite div_len by exact Hne.
  eexists. split; [reflexivity|].
  pose proof (len_pos services Hne). field. lra.
Qed.

Lemma nat_scaled_lt (a b : Z) (m n : nat) :
  (inject_Z a * inject_Z (Z.of_nat m) < inject_Z b * inject_Z (Z.of_nat n))%Q ↔
  (a * Z.of_nat m < b * Z.of_nat n)%Z.
Proof. rewrite <- !inject_Z_mult, <- Zlt_Qlt. reflexivity. Qed.

Lemma ratio_lt (q h n c : Q) :
  (0 < n)%Q → (q * n == h)%Q → (q < c)%Q ↔ (h < c * n)%Q.
Proof.
  intros Hn Hr. rewrite <- Hr. symmetry. by apply Qmult_lt_r.
Qed.

Lemma healthFires_iff services :
  healthFires services = true ↔ ∃ s, s ∈ services ∧ status s ≠ healthy.
Proof.
  rewrite <- filter_length_lt. unfold healthFires.
  destruct services as [|s0 l]; [simpl; split; [discriminate | lia]|].
  destruct (healthScore_ratio (s0 :: l)) as (q & Hq & Hr); [done|].
  rewrite Hq. simpl JS.lt. rewrite Qltb_lt.
  assert (Hpos : (0 < JS.len (s0 :: l))%Q) by (by apply len_pos).
  rewrite (ratio_lt q _ _ (inject_Z 1) Hpos Hr).
  rewrite <- (Qmult_1_l (JS.len (filter _ _))).
  change 1%Q with (inject_Z 1). unfold JS.len. rewrite nat_scaled_lt.
  rewrite !Z.mul_1_l, <- Nat2Z.inj_lt. reflexivity.
Qed.

(** The severity of the health insight: [high] exactly when fewer than seven
    services in ten are healthy. *)
Lemma healthInsight_severity services :
  services ≠ [] →
  severity (healthInsight services (healthScore services)) =
    if decide (10 * length (filter (λ s, status s = healthy) services)
               < 7 * length services)
    then high else medium.
Proof.
  intros Hne. destruct (healthScore_ratio services Hne) as (q & Hq & Hr).
  rewrite Hq. simpl. pose proof (len_pos services Hne) as Hpos.
  assert (Hiff : (q < 0.7)%Q ↔
                 10 * length (filter (λ s, status s = healthy) services)
                 < 7 * length services).
  { rewrite (ratio_lt q _ _ 0.7 Hpos Hr).
    match goal with
    | |- (?h < _)%Q ↔ _ =>
        transitivity (inject_Z 10 * h < inject_Z 7 * JS.len services)%Q
    end.
    { change (inject_Z 10) with 10%Q. change (inject_Z 7) with 7%Q.
      split; intros; lra. }
    unfold JS.len. rewrite nat_scaled_lt.
    change 10%Z with (Z.of_nat 10). change 7%Z with (Z.of_nat 7).
    rewrite <- !Nat2Z.inj_mul, <- Nat2Z.inj_lt. reflexivity. }
  destruct (JS.Qltb q 0.7) eqn:E.
  - apply Qltb_lt in E. rewrite decide_True; [reflexivity | by apply Hiff].
  - apply Qltb_ge in E. rewrite decide_False; [reflexivity|].
    intros Hlt. apply Hiff in Hlt. lra.
Qed.

Lemma health_fired services :
  healthFires services = true →
  filter (λ i, type i = health) (generateAIInsights services)
    = [healthInsight services (healthScore services)].
Proof.
  intros H. rewrite generateAIInsights_eq, H.
  destruct (predictionFires services), (anomalyFires services),
    (capacityFires services); reflexivity.
Qed.

Lemma health_not_fired services i :
  healthFires services = false →
  i ∈ generateAIInsights services → type i = health → i = optimalInsight.
Proof.
  intros E Hi Ht. rewrite generateAIInsights_eq, E in Hi.
  destruct (predictionFires services), (anomalyFires services),
    (capacityFires services); simpl in Hi;
    repeat (apply elem_of_cons in Hi as [->|Hi]; [try discriminate Ht; try reflexivity|]);
    by apply not_elem_of_nil in Hi.
Qed.

(** The health rule: the result holds a health-risk insight exactly when some
    service is not healthy; it is then the only insight of type [health], has
    confidence 0.83, lists the names of the services that are not healthy, in
    order, and its severity is [high] when fewer than seven services in ten
    are healthy, [medium] otherwise. *)
Theorem health_rule (services : list ServiceStatus) :
  ((∃ s, s ∈ services ∧ status s ≠ healthy) →
     filter (λ i, type i = health) (generateAIInsights services)
       = [healthInsight services (healthScore services)] ∧
     severity (healthInsight services (healthScore services)) =
       (if decide (10 * length (filter (λ s, status s = healthy) services)
                   < 7 * length services)
        then high else medium) ∧
     affectedServices (healthInsight services (healthScore services))
       = Some (name <$> filter (λ s, status s ≠ healthy) services) ∧
     (confidence (healthInsight services (healthScore services)) == 0.83)%Q) ∧
  ((∀ s, s ∈ services → status s = healthy) →
     ∀ i, i ∈ generateAIInsights services → type i = health → i = optimalInsight).
Proof.
  split.
  - intros H. assert (Hne : services ≠ []).
    { destruct H as (s & Hs & _). intros ->. by apply not_elem_of_nil in Hs. }
    apply healthFires_iff in H. split; [|split; [|split; reflexivity]].
    + by apply health_fired.
    + by apply healthInsight_severity.
  - intros H i Hi Ht.
    assert (E : healthFires services = false).
    { destruct (healthFires services) eqn:E; [|reflexivity].
      apply healthFires_iff in E as (s & Hs & Hn). by specialize (H s Hs). }
    by apply (health_not_fired services).
Qed.

Lemma health_rule_witness :
  filter (λ i, type i = health) (generateAIInsights oneDegraded)
    = [healthInsight oneDegraded (healthScore oneDegraded)] ∧
  severity (healthInsight oneDegraded (healthScore oneDegraded)) = medium ∧
  affectedServices (healthInsight oneDegraded (healthScore oneDegraded))
    = Some ["Accounts Service"].
Proof.
  assert (H : ∃ s, s ∈ oneDegraded ∧ status s ≠ healthy).
  { eexists. split; [apply list_elem_of_here | discriminate]. }
  destruct (proj1 (health_rule oneDegraded) H) as (H1 & H2 & H3 & _).
  split; [exact H1|]. split; [exact H2 | exact H3].
Defined.

(** With at most three services the health insight is never of severity
    [medium]: one service that is not healthy already leaves fewer than
    seven in ten healthy. *)
Theorem health_severity_three (services : list ServiceStatus) :
  length services ≤ 3 →
  ∀ i, i ∈ generateAIInsights services → type i = health →
       severity i = high ∨ i = optimalInsight.
Proof.
  intros Hlen i Hi Ht.
  destruct (healthFires services) eqn:E.
  - left. pose proof (health_fired services E) as Hf.
    apply healthFires_iff in E.
    assert (Hne : services ≠ []).
    { destruct E as (s & Hs & _). intros ->. by apply not_elem_of_nil in Hs. }
    assert (Hin : i ∈ filter (λ i, type i = health) (generateAIInsights services))
      by (by apply list_elem_of_filter).
    rewrite Hf in Hin. apply list_elem_of_singleton in Hin. subst i.
    rewrite healthInsight_severity by exact Hne.
    assert (Hlt : length (filter (λ s, status s = healthy) services)
                  < length services) by (by apply filter_length_lt).
    rewrite decide_True; [reflexivity | lia].
  - right. by apply (health_not_fired services).
Qed.

Lemma health_severity_three_witness :
  severity (healthInsight (take 3 oneDegraded) (healthScore (take 3 oneDegraded)))
    = high ∨
  healthInsight (take 3 oneDegraded) (healthScore (take 3 oneDegraded))
    = optimalInsight.
Proof.
  apply (health_severity_three (take 3 oneDegraded)).
  - simpl. lia.
  - vm_compute. apply list_elem_of_here.
  - reflexivity.
Defined.

End RuleEngineMore.

(** ** The shape of the insight list and its cards *)

Section InsightList.

Import AIAnalytics.

(** The result is never empty, and its insights come in the order
    prediction, anomaly, capacity, health, no type twice: so there are between
    one and four of them. *)
Theorem insights_ordered (services : list ServiceStatus) :
  generateAIInsights services ≠ [] ∧
  type <$> generateAIInsights services
    `sublist_of` [prediction; anomaly; capacity; health] ∧
  1 ≤ length (generateAIInsights services) ≤ 4.
Proof.
  assert (Hs : generateAIInsights services ≠ [] ∧
               type <$> generateAIInsights services
                 `sublist_of` [prediction; anomaly; capacity; health]).
  { rewrite generateAIInsights_eq.
    destruct (predictionFires services), (anomalyFires services),
      (capacityFires services), (healthFires services); csimpl;
      (split; [discriminate|]);
      repeat first [ apply sublist_nil_l | apply sublist_skip | apply sublist_cons ]. }
  destruct Hs as [Hne Hsub]. split; [exact Hne|]. split; [exact Hsub|].
  apply sublist_length in Hsub. rewrite length_fmap in Hsub. simpl in Hsub.
  destruct (generateAIInsights services); [done|]. simpl in *. lia.
Qed.

(** Every insight of a result is one of the five the rules build. *)
Lemma insight_cases services i :
  i ∈ generateAIInsights services →
  i = predictionInsight ∨ i = anomalyInsight ∨ i = capacityInsight ∨
  i = healthInsight services (healthScore services) ∨ i = optimalInsight.
Proof.
  rewrite generateAIInsights_eq.
  destruct (predictionFires services), (anomalyFires services),
    (capacityFires services), (healthFires services); simpl; intros Hi;
    repeat (apply elem_of_cons in Hi as [->|Hi]; [tauto|]);
    by apply not_elem_of_nil in Hi.
Qed.

(** On its card every insight of a result has a green or a yellow confidence,
    never a red one (green for the anomaly insight and for the nominal one);
    the card lists two of its recommendations and announces one more. *)
Theorem insight_card (services : list ServiceStatus) (i : AIInsight) :
  i ∈ generateAIInsights services →
  InsightCard.getConfidenceColor (confidence i) =
    (if decide (type i = anomaly ∨ severity i = low)
     then "text-green-600" else "text-yellow-600") ∧
  length (InsightCard.shownRecommendations i) = 2 ∧
  InsightCard.moreRecommendations i = Some 1.
Proof.
  intros Hi. apply insight_cases in Hi.
  destruct Hi as [->|[->|[->|[->| ->]]]]; try (repeat split; reflexivity).
  unfold healthInsight. simpl.
  destruct (JS.lt (healthScore services) 0.7); repeat split; reflexivity.
Qed.

Lemma insight_card_witness :
  InsightCard.getConfidenceColor (confidence anomalyInsight) = "text-green-600" ∧
  length (InsightCard.shownRecommendations anomalyInsight) = 2 ∧
  InsightCard.moreRecommendations anomalyInsight = Some 1.
Proof.
  apply (insight_card oneFailing anomalyInsight).
  vm_compute. apply list_elem_of_here.
Defined.

End InsightList.

(** ** A poll, its overview and the insights on its records *)

Section PollAndRules.

Import Poller AIAnalytics.

(** The overview and the rule engine compute the same mean error rate and
    the same connection total: the anomaly rule fires exactly when the error
    rate of the overview exceeds 0.03, the capacity rule exactly when its
    active connections exceed 150. *)
Theorem overview_matches_rules (newServices : list ServiceStatus) :
  Overview.errorRate (aggregate newServices) = avgErrorRate newServices ∧
  Overview.activeConnections (aggregate newServices) = totalConnections newServices ∧
  anomalyFires newServices = JS.gt (Overview.errorRate (aggregate newServices)) 0.03 ∧
  capacityFires newServices
    = JS.Qltb 150 (Overview.activeConnections (aggregate newServices)).
Proof.
  assert (E : Overview.errorRate (aggregate newServices) = avgErrorRate newServices).
  { unfold aggregate, avgErrorRate. simpl.
    rewrite foldl_fmap. unfold JS.len. by rewrite length_fmap. }
  split; [exact E|]. split; [reflexivity|].
  split; [unfold anomalyFires; by rewrite E | reflexivity].
Qed.

Lemma poll_eq get configs :
  poll get configs =
    imap (λ k config, pollOne config (get k (Config.url config +:+ "/health")))
      configs.
Proof. unfold poll. by rewrite pollFrom_eq. Qed.

Lemma poll_all_rejected get configs :
  (∀ i u, get i u = Rejected) → poll get configs = failed <$> configs.
Proof.
  intros H. rewrite poll_eq, <- (imap_const failed).
  apply imap_ext. intros k c _. simpl. by rewrite H.
Qed.

Lemma sum_const {A} (f : A → Q) (c : Q) (l : list A) :
  (∀ x, x ∈ l → f x = c) →
  (foldr Qplus 0 (f <$> l) == c * JS.len l)%Q.
Proof.
  intros H. induction l as [|x l IH].
  - change (0 == c * 0)%Q. lra.
  - csimpl. rewrite IH by (intros y Hy; apply H; by right).
    rewrite (H x) by left. unfold JS.len. simpl length.
    rewrite Nat2Z.inj_succ. unfold Z.succ. rewrite inject_Z_plus.
    change (inject_Z 1) with 1%Q. lra.
Qed.

Lemma mean_const {A} (f : A → Q) (c : Q) (l : list A) :
  l ≠ [] → (∀ x, x ∈ l → f x = c) → (mean (f <$> l) == c)%Q.
Proof.
  intros Hne H. unfold mean. rewrite length_fmap, (sum_const f c l H).
  pose proof (len_pos l Hne) as Hpos. unfold JS.len in *. field. lra.
Qed.

Lemma filter_none {A} (P : A → Prop) `{∀ x, Decision (P x)} (l : list A) :
  (∀ x, x ∈ l → ¬ P x) → filter P l = [].
Proof.
  intros H'. induction l as [|x l IH]; [done|].
  rewrite filter_cons, decide_False by (apply H'; left).
  apply IH. intros y Hy. apply H'. by right.
Qed.

Lemma filter_all {A} (P : A → Prop) `{∀ x, Decision (P x)} (l : list A) :
  (∀ x, x ∈ l → P x) → filter P l = l.
Proof.
  intros H'. induction l as [|x l IH]; [done|].
  rewrite filter_cons, decide_True by (apply H'; left).
  f_equal. apply IH. intros y Hy. apply H'. by right.
Qed.

Lemma fires_false_of_mean (b : bool) (P : Prop) : (b = true ↔ P) → ¬ P → b = false.
Proof. destruct b; [intros [H _] Hn; exfalso; by apply Hn, H | done]. Qed.

(** When every request of a poll fails, whatever the services configured
    (at least one): the insights on its records are the anomaly insight and a
    health-risk insight of severity [high] that names every configured
    service, and nothing else; the overview has error rate 1 and no requests
    or connections. *)
Theorem total_outage (get : nat → string → Outcome) (configs : list Config.t) :
  configs ≠ [] → (∀ i u, get i u = Rejected) →
  generateAIInsights (poll get configs)
    = [anomalyInsight;
       healthInsight (poll get configs) (healthScore (poll get configs))] ∧
  severity (healthInsight (poll get configs) (healthScore (poll get configs)))
    = high ∧
  affectedServices
      (healthInsight (poll get configs) (healthScore (poll get configs)))
    = Some (Config.name <$> configs) ∧
  (∃ q, Overview.errorRate (aggregate (poll get configs)) = JS.Fin q ∧ (q == 1)%Q) ∧
  (Overview.totalRequests (aggregate (poll get configs)) == 0)%Q ∧
  (Overview.activeConnections (aggregate (poll get configs)) == 0)%Q.
Proof.
  intros Hne Hrej. rewrite (poll_all_rejected get configs Hrej).
  set (l := failed <$> configs).
  assert (Hl : l ≠ []) by (subst l; destruct configs; done).
  assert (Hall : ∀ s, s ∈ l → ∃ c, s = failed c ∧ c ∈ configs).
  { intros s Hs. by apply list_elem_of_fmap in Hs. }
  assert (Hrt : (mean (responseTime <$> l) == 0)%Q).
  { apply mean_const; [exact Hl|]. intros s Hs.
    destruct (Hall s Hs) as (c & -> & _). reflexivity. }
  assert (Her : (mean (errorRate <$> l) == 1)%Q).
  { apply mean_const; [exact Hl|]. intros s Hs.
    destruct (Hall s Hs) as (c & -> & _). reflexivity. }
  assert (Hconn : (totalConnections l == 0)%Q).
  { rewrite totalConnections_sum,
      (sum_const (λ s, active_connections (metrics s)) 0 l); [lra|].
    intros s Hs. destruct (Hall s Hs) as (c & -> & _). reflexivity. }
  assert (Hreq : (Overview.totalRequests (aggregate l) == 0)%Q).
  { unfold aggregate. simpl.
    rewrite (foldl_Qplus (λ s, requests_per_second (metrics s) * 60)%Q),
      (sum_const (λ s, requests_per_second (metrics s) * 60)%Q 0 l); [lra|].
    intros s Hs. destruct (Hall s Hs) as (c & -> & _). reflexivity. }
  assert (Hp : predictionFires l = false).
  { apply (fires_false_of_mean _ _ (predictionFires_mean l)). intros [_ H]. lra. }
  assert (Ha : anomalyFires l = true).
  { apply anomalyFires_mean. split; [exact Hl|]. rewrite Her. reflexivity. }
  assert (Hc : capacityFires l = false).
  { unfold capacityFires. apply Qltb_ge. rewrite Hconn. discriminate. }
  assert (Hnone : filter (λ s, status s = healthy) l = []).
  { apply filter_none. intros s Hs.
    destruct (Hall s Hs) as (c & -> & _). discriminate. }
  assert (Hh : healthFires l = true).
  { apply healthFires_iff. destruct l as [|s l'] eqn:El; [done|].
    exists s. split; [left|]. destruct (Hall s) as (c & -> & _); [left|].
    discriminate. }
  split; [|split; [|split; [|split; [|split]]]].
  - rewrite generateAIInsights_eq, Hp, Ha, Hc, Hh. reflexivity.
  - rewrite healthInsight_severity by exact Hl. rewrite Hnone.
    rewrite decide_True; [reflexivity|]. destruct l; [done|]. simpl. lia.
  - unfold affectedServices, healthInsight. simpl. f_equal. rewrite filter_all.
    + subst l. rewrite <- list_fmap_compose. reflexivity.
    + intros s Hs. destruct (Hall s Hs) as (c & -> & _). discriminate.
  - destruct (aggregate_errorRate l Hl) as (q & Hq & Hm).
    exists q. split; [exact Hq|]. by rewrite Hm.
  - exact Hreq.
  - change (Overview.activeConnections (aggregate l)) with (totalConnections l).
    exact Hconn.
Qed.

Lemma total_outage_witness :
  generateAIInsights (poll (λ _ _, Rejected) serviceConfigs)
    = [anomalyInsight;
       healthInsight (poll (λ _ _, Rejected) serviceConfigs)
         (healthScore (poll (λ _ _, Rejected) serviceConfigs))].
Proof.
  apply (total_outage (λ _ _, Rejected) serviceConfigs); [discriminate | reflexivity].
Defined.

Lemma anomaly_elem services :
  anomalyFires services = true → anomalyInsight ∈ generateAIInsights services.
Proof.
  intros H. rewrite generateAIInsights_eq, H.
  destruct (predictionFires services), (capacityFires services),
    (healthFires services); simpl;
    repeat first [ apply list_elem_of_here | apply list_elem_of_further ].
Qed.

Lemma health_elem services :
  healthFires services = true →
  healthInsight services (healthScore services) ∈ generateAIInsights services.
Proof.
  intros H. rewrite generateAIInsights_eq, H.
  destruct (predictionFires services), (capacityFires services),
    (anomalyFires services); simpl;
    repeat first [ apply list_elem_of_here | apply list_elem_of_further ].
Qed.

Lemma sum_ge_elem (xs : list Q) (i : nat) (y : Q) :
  (∀ x, x ∈ xs → (0 <= x)%Q) → xs !! i = Some y → (y <= foldr Qplus 0 xs)%Q.
Proof.
  revert i. induction xs as [|x xs IH]; intros i Hpos Hi; [done|].
  assert (Hx : (0 <= x)%Q) by (apply Hpos; left).
  assert (Hs : (0 <= foldr Qplus 0 xs)%Q).
  { clear -Hpos. induction xs as [|z xs IH]; [simpl; lra|].
    assert (0 <= z)%Q by (apply Hpos; right; left).
    assert (0 <= foldr Qplus 0 xs)%Q.
    { apply IH. intros w Hw. apply Hpos.
      apply elem_of_cons in Hw as [->|Hw]; [left | do 2 right; exact Hw]. }
    simpl. lra. }
  destruct i as [|i]; simpl in *.
  - injection Hi as ->. lra.
  - assert (y <= foldr Qplus 0 xs)%Q.
    { apply (IH i); [|exact Hi]. intros w Hw. apply Hpos. by right. }
    lra.
Qed.

Lemma poll_elem get configs s :
  s ∈ poll get configs →
  ∃ k config, s = pollOne config (get k (Config.url config +:+ "/health")).
Proof.
  intros Hs. apply list_elem_of_lookup in Hs as [k Hk].
  rewrite poll_eq, list_lookup_imap in Hk.
  destruct (configs !! k) as [config|]; [|done].
  injection Hk as <-. eauto.
Qed.

(** When at most 33 services are configured, no response reports a negative
    error rate and at least one request fails, the insights on the records of
    the poll include the anomaly insight and the health-risk insight: one
    record with error rate 1 among 33 already puts the mean above 0.03. *)
Theorem partial_outage (get : nat → string → Outcome) (configs : list Config.t)
    (i : nat) (config : Config.t) :
  length configs ≤ 33 →
  configs !! i = Some config →
  get i (Config.url config +:+ "/health") = Rejected →
  (∀ j u data, get j u = Resolved data →
     (0 <= default 0 (Payload.errorRate data))%Q) →
  anomalyInsight ∈ generateAIInsights (poll get configs) ∧
  healthInsight (poll get configs) (healthScore (poll get configs))
    ∈ generateAIInsights (poll get configs).
Proof.
  intros Hlen Hi Hrej Hpos.
  pose proof (poll_lookup get configs i config Hi) as Hl. rewrite Hrej in Hl.
  simpl in Hl. set (l := poll get configs) in *.
  assert (Hne : l ≠ []) by (intros E; by rewrite E in Hl).
  split.
  - apply anomaly_elem, anomalyFires_mean. split; [exact Hne|].
    assert (Hsum : (1 <= foldr Qplus 0 (errorRate <$> l))%Q).
    { apply (sum_ge_elem _ i).
      - intros x Hx. apply list_elem_of_fmap in Hx as (s & -> & Hs).
        apply poll_elem in Hs as (k & c & ->).
        destruct (get k _) eqn:E; simpl; [by eapply Hpos | lra | lra].
      - by rewrite list_lookup_fmap, Hl. }
    assert (Hn : (inject_Z (Z.of_nat (length l)) <= 33)%Q).
    { change 33%Q with (inject_Z 33). rewrite <- Zle_Qle.
      subst l. rewrite poll_length. lia. }
    pose proof (len_pos l Hne) as Hp. unfold JS.len in Hp.
    unfold mean. rewrite length_fmap.
    apply Qlt_shift_div_l; [exact Hp | lra].
  - apply health_elem, healthFires_iff. exists (failed config).
    split; [by eapply list_elem_of_lookup_2 | discriminate].
Qed.

Lemma partial_outage_witness :
  anomalyInsight ∈ generateAIInsights (poll oneTimesOut serviceConfigs) ∧
  healthInsight (poll oneTimesOut serviceConfigs)
      (healthScore (poll oneTimesOut serviceConfigs))
    ∈ generateAIInsights (poll oneTimesOut serviceConfigs).
Proof.
  apply (partial_outage oneTimesOut serviceConfigs 1
           (Config.mk "Investments Service" "http://localhost:8002"
              "Personalized investment tracking and portfolio management")).
  - simpl. lia.
  - reflexivity.
  - reflexivity.
  - intros j u data. destruct j as [|[|j]]; simpl; intros E; [| discriminate |];
      injection E as <-; simpl.
    + apply Qle_refl.
    + discriminate.
Defined.

(** For the three configured services, whatever their requests yield, the
    fields [paymentsProcessed], [portfolioValue] and [totalAccounts] of the
    overview add up to one sixtieth of [totalRequests]. *)
Theorem configured_fields_sum (get : nat → string → Outcome) :
  let o := snd (fetchServiceHealth get serviceConfigs) in
  (Overview.totalRequests o ==
   60 * (Overview.paymentsProcessed o + Overview.portfolioValue o
         + Overview.totalAccounts o))%Q.
Proof.
  unfold fetchServiceHealth. rewrite poll_eq. simpl.
  destruct (get 0%nat _), (get 1%nat _), (get 2%nat _); unfold rpsOf; simpl; lra.
Qed.

(** When every service answers with an empty object (at least one service
    being configured), every record is healthy with default values, the
    insights reduce to the nominal one and the error rate of the overview
    is 0. *)
Theorem all_empty_answers (get : nat → string → Outcome) (configs : list Config.t) :
  configs ≠ [] →
  (∀ i u, get i u = Resolved (Payload.mk None None None None None)) →
  (∀ s, s ∈ poll get configs →
     status s = healthy ∧ uptime s = "99.99%" ∧ responseTime s = 0%Q ∧
     errorRate s = 0%Q ∧ metrics s = mkMetrics 0 0 0 0) ∧
  generateAIInsights (poll get configs) = [optimalInsight] ∧
  (∃ q, Overview.errorRate (aggregate (poll get configs)) = JS.Fin q ∧ (q == 0)%Q).
Proof.
  intros Hne Hres.
  assert (Hall : ∀ s, s ∈ poll get configs →
            status s = healthy ∧ uptime s = "99.99%" ∧ responseTime s = 0%Q ∧
            errorRate s = 0%Q ∧ metrics s = mkMetrics 0 0 0 0).
  { intros s Hs. apply poll_elem in Hs as (k & c & ->). rewrite Hres.
    repeat split; reflexivity. }
  set (l := poll get configs) in *.
  assert (Hl : l ≠ []).
  { subst l. intros E. apply (f_equal length) in E. rewrite poll_length in E.
    destruct configs; done. }
  assert (Hrt : (mean (responseTime <$> l) == 0)%Q).
  { apply mean_const; [exact Hl|]. intros s Hs. by apply Hall. }
  assert (Her : (mean (errorRate <$> l) == 0)%Q).
  { apply mean_const; [exact Hl|]. intros s Hs. by apply Hall. }
  assert (Hconn : (totalConnections l == 0)%Q).
  { rewrite totalConnections_sum,
      (sum_const (λ s, active_connections (metrics s)) 0 l); [lra|].
    intros s Hs. destruct (Hall s Hs) as (_ & _ & _ & _ & ->). reflexivity. }
  split; [exact Hall|]. split.
  - rewrite generateAIInsights_eq.
    rewrite (fires_false_of_mean _ _ (predictionFires_mean l))
      by (intros [_ H]; lra).
    rewrite (fires_false_of_mean _ _ (anomalyFires_mean l))
      by (intros [_ H]; lra).
    rewrite (fires_false_of_mean _ _ (healthFires_iff l))
      by (intros (s & Hs & Hn); by destruct (Hall s Hs)).
    unfold capacityFires.
    assert (Hc : JS.Qltb 150 (totalConnections l) = false).
    { apply Qltb_ge. rewrite Hconn. discriminate. }
    rewrite Hc. reflexivity.
  - destruct (aggregate_errorRate l Hl) as (q & Hq & Hm).
    exists q. split; [exact Hq|]. by rewrite Hm.
Qed.

Lemma all_empty_answers_witness :
  generateAIInsights
    (poll (λ _ _, Resolved (Payload.mk None None None None None)) serviceConfigs)
  = [optimalInsight].
Proof.
  apply (all_empty_answers
           (λ _ _, Resolved (Payload.mk None None None None None)) serviceConfigs);
    [discriminate | reflexivity].
Defined.

End PollAndRules.

(** ** The generated points and their chart *)

Section PointsAndChart.

Import Buffer.

Lemma point_value metricType now r :
  value (point metricType now r)
  = Qmax 0 (baseValue metricType + r * variance metricType
            - variance metricType / 2).
Proof. reflexivity. Qed.

Lemma Qmax_0_within (e a b : Q) :
  (0 <= a)%Q ∧ (a <= e)%Q ∧ (e <= b)%Q → (a <= Qmax 0 e <= b)%Q.
Proof.
  intros (Ha & Hae & Heb). split.
  - eapply Qle_trans; [exact Hae | apply Q.le_max_r].
  - apply Q.max_lub; lra.
Qed.

Lemma point_value_bounds (now : string) (r : Q) :
  (∀ metricType, (0 <= value (point metricType now r))%Q) ∧
  ((0 <= r <= 1)%Q →
     (135 <= value (point "requestRate" now r) <= 165)%Q ∧
     (40 <= value (point "responseTime" now r) <= 60)%Q ∧
     (0.015 <= value (point "errorRate" now r) <= 0.025)%Q ∧
     (60 <= value (point "memoryUsage" now r) <= 70)%Q ∧
     (17.5 <= value (point "cpuUsage" now r) <= 32.5)%Q).
Proof.
  split.
  - intros metricType. rewrite point_value. apply Q.le_max_l.
  - intros [Hr0 Hr1]. rewrite !point_value.
    change (baseValue "requestRate") with 150%Q.
    change (variance "requestRate") with 30%Q.
    change (baseValue "responseTime") with 50%Q.
    change (variance "responseTime") with 20%Q.
    change (baseValue "errorRate") with 0.02%Q.
    change (variance "errorRate") with 0.01%Q.
    change (baseValue "memoryUsage") with 65%Q.
    change (variance "memoryUsage") with 10%Q.
    change (baseValue "cpuUsage") with 25%Q.
    change (variance "cpuUsage") with 15%Q.
    unfold Qdiv. change (/ 2)%Q with (1 # 2)%Q.
    split; [|split; [|split; [|split]]];
      (apply Qmax_0_within; split; [lra | split; lra]).
Qed.

(** The value of a generated point is never negative.  For a draw of
    [Math.random()] (also for one so close to 1 that the sum rounds up to the
    bound) it lies within half the variance of the base value: request rate
    in [135, 165], response time in [40, 60], error rate in [0.015, 0.025],
    memory usage in [60, 70], CPU usage in [17.5, 32.5]. *)
Theorem point_bounds (now : string) (r : Q) :
  (∀ metricType, (0 <= value (point metricType now r))%Q) ∧
  ((0 <= r <= 1)%Q →
     (135 <= value (point "requestRate" now r) <= 165)%Q ∧
     (40 <= value (point "responseTime" now r) <= 60)%Q ∧
     (0.015 <= value (point "errorRate" now r) <= 0.025)%Q ∧
     (60 <= value (point "memoryUsage" now r) <= 70)%Q ∧
     (17.5 <= value (point "cpuUsage" now r) <= 32.5)%Q).
Proof. apply point_value_bounds. Qed.

Lemma point_bounds_witness :
  (135 <= value (point "requestRate" "t" 0.5) <= 165)%Q.
Proof.
  apply (proj2 (point_bounds "t" 0.5)). split; discriminate.
Defined.

Lemma last_sliceLast {A} n (a : list A) :
  (0 < n)%nat → last (sliceLast n a) = last a.
Proof.
  intros Hn. unfold sliceLast.
  destruct (decide (length a = 0%nat)) as [E|E].
  - apply length_zero_iff_nil in E. by subst a.
  - rewrite !last_lookup, length_drop, lookup_drop. f_equal. lia.
Qed.

Lemma last_push series p : last (push series p) = Some p.
Proof. rewrite push_sliceLast, last_sliceLast by lia. apply last_snoc. Qed.

Lemma push_nonempty series p : 1 ≤ length (push series p).
Proof.
  pose proof (last_push series p) as H. destruct (push series p); [done|].
  simpl. lia.
Qed.

(** What a run of [generateMetricsData] leaves behind: a series that is not
    tracked is as it was; a tracked one holds between 1 and 20 points, the
    last being the point just drawn, which is the value the chart shows as
    latest; and a tracked series that was absent, as all are for the first
    run, holds that one point. *)
Theorem run_of_generateMetricsData (metrics : gmap string (list MetricData))
    (now : string) (random : nat → Q) :
  (∀ k, k ∉ metricTypes →
        generateMetricsData metrics now random !! k = metrics !! k) ∧
  (∀ j k, metricTypes !! j = Some k →
     ∃ series,
       generateMetricsData metrics now random !! k = Some series ∧
       1 ≤ length series ≤ 20 ∧
       last series = Some (point k now (random j)) ∧
       MetricsChart.latestValue series = value (point k now (random j)) ∧
       (metrics !! k = None → series = [point k now (random j)])).
Proof.
  split.
  - intros k Hk. unfold generateMetricsData. by apply forEachFrom_lookup_notin.
  - intros j k Hj. eexists. split; [by apply generateMetricsData_series|].
    split; [split; [apply push_nonempty | apply push_length]|].
    split; [apply last_push|]. split.
    + unfold MetricsChart.latestValue. by rewrite last_push.
    + intros ->. reflexivity.
Qed.

Lemma run_of_generateMetricsData_witness :
  ∃ series,
    generateMetricsData ∅ "t" (λ _, 0.5%Q) !! "errorRate" = Some series ∧
    1 ≤ length series ≤ 20 ∧
    last series = Some (point "errorRate" "t" 0.5) ∧
    MetricsChart.latestValue series = value (point "errorRate" "t" 0.5) ∧
    ((∅ : gmap string (list MetricData)) !! "errorRate" = None →
     series = [point "errorRate" "t" 0.5]).
Proof.
  exact (proj2 (run_of_generateMetricsData ∅ "t" (λ _, 0.5%Q)) 2 "errorRate" eq_refl).
Defined.

(** *** The chart *)

Lemma height_pos p maxValue :
  (0 < maxValue)%Q →
  MetricsChart.height p maxValue
  = JS.Fin (Qmax (value p / maxValue * 100) 2).
Proof.
  intros Hm. unfold MetricsChart.height, JS.div.
  destruct (Qeq_bool maxValue 0) eqn:E; [|reflexivity].
  apply Qeq_bool_iff in E. lra.
Qed.

(** The height of a bar, in percent, for a positive [maxValue]: at least 2,
    and at most 100 exactly when the value does not exceed [maxValue]; a
    larger value overflows.  The points generated from draws in [0, 1) for the
    four charted metrics, with the [maxValue] the page passes for each, give
    bars between 17.5 and 82.5 percent. *)
Theorem chart_bars :
  (∀ p maxValue, (0 < maxValue)%Q →
     ∃ h, MetricsChart.height p maxValue = JS.Fin h ∧ (2 <= h)%Q ∧
          ((h <= 100)%Q ↔ (value p <= maxValue)%Q)) ∧
  (∀ metricType maxValue now r,
     (metricType, maxValue) ∈ MetricsChart.charted → (0 <= r < 1)%Q →
     ∃ h, MetricsChart.height (point metricType now r) maxValue = JS.Fin h ∧
          (17.5 <= h <= 82.5)%Q).
Proof.
  split.
  - intros p maxValue Hm. rewrite height_pos by exact Hm.
    eexists. split; [reflexivity|]. split; [apply Q.le_max_r|].
    assert (Hx : (value p / maxValue * maxValue == value p)%Q) by (field; lra).
    set (x := (value p / maxValue)%Q) in *.
    split.
    + intros Hh. assert (x * 100 <= 100)%Q.
      { eapply Qle_trans; [apply Q.le_max_l | exact Hh]. }
      nra.
    + intros Hv. apply Q.max_lub; [|lra].
      assert (x <= 1)%Q; [|lra].
      apply Qnot_lt_le. intros Hlt. nra.
  - intros metricType maxValue now r Hin Hr.
    assert (Hr' : (0 <= r <= 1)%Q) by (destruct Hr; split; lra).
    destruct (proj2 (point_value_bounds now r) Hr') as (H1 & H2 & _ & H4 & H5).
    unfold MetricsChart.charted in Hin.
    repeat (apply elem_of_cons in Hin as [Hin|Hin];
            [injection Hin as -> ->;
             rewrite height_pos by reflexivity;
             eexists; split; [reflexivity|];
             unfold Qdiv; change (/ 200)%Q with (1 # 200)%Q;
             change (/ 100)%Q with (1 # 100)%Q;
             split;
             [ eapply Qle_trans; [|apply Q.le_max_l]; lra
             | apply Q.max_lub; lra ]|]).
    by apply not_elem_of_nil in Hin.
Qed.

Lemma chart_bars_witness :
  ∃ h, MetricsChart.height (point "requestRate" "t" 0.5) 200 = JS.Fin h ∧
       (17.5 <= h <= 82.5)%Q.
Proof.
  apply (proj2 chart_bars "requestRate" 200%Q "t" 0.5%Q).
  - apply list_elem_of_here.
  - split; [discriminate | reflexivity].
Defined.

Lemma trend_snoc2 (init : list MetricData) (p l : MetricData) :
  MetricsChart.trend (init ++ [p; l])
  = JSArith.mul (JS.div (value l - value p) (value p)) 100.
Proof.
  unfold MetricsChart.trend, MetricsChart.latestValue.
  rewrite length_app. simpl length.
  replace (1 <? length init + 2)%nat with true
    by (symmetry; apply Nat.ltb_lt; lia).
  replace (length init + 2 - 2)%nat with (length init + 0)%nat by lia.
  rewrite lookup_app_r by lia.
  replace (length init + 0 - length init)%nat with 0%nat by lia.
  change [p; l] with ([p] ++ [l]). rewrite app_assoc, last_snoc. reflexivity.
Qed.

(** The trend of the chart: 0 for a series of fewer than two points; for a
    longer one the relative change from the point before the last to the
    last, in percent, when that earlier value is not 0.  When it is 0 the
    trend is not a finite number: [NaN] if the last value is 0 too, plus
    infinity if it is positive. *)
Theorem trend_cases (init : list MetricData) (p l : MetricData) :
  MetricsChart.trend [] = JS.Fin 0 ∧
  MetricsChart.trend [l] = JS.Fin 0 ∧
  MetricsChart.latestValue [] = 0%Q ∧
  MetricsChart.latestValue (init ++ [p; l]) = value l ∧
  (¬ (value p == 0)%Q →
     MetricsChart.trend (init ++ [p; l])
     = JS.Fin ((value l - value p) / value p * 100)) ∧
  ((value p == 0)%Q → (value l == 0)%Q →
     MetricsChart.trend (init ++ [p; l]) = JS.NaN) ∧
  ((value p == 0)%Q → (0 < value l)%Q →
     MetricsChart.trend (init ++ [p; l]) = JS.PosInf).
Proof.
  split; [reflexivity|]. split; [reflexivity|]. split; [reflexivity|].
  split.
  { unfold MetricsChart.latestValue.
    change [p; l] with ([p] ++ [l]). by rewrite app_assoc, last_snoc. }
  rewrite trend_snoc2. unfold JS.div.
  split; [|split].
  - intros Hp. destruct (Qeq_bool (value p) 0) eqn:E; [|reflexivity].
    apply Qeq_bool_iff in E. contradiction.
  - intros Hp Hl.
    assert (E : Qeq_bool (value p) 0 = true) by (by apply Qeq_bool_iff).
    assert (E' : Qeq_bool (value l - value p) 0 = true)
      by (apply Qeq_bool_iff; lra).
    rewrite E, E'. reflexivity.
  - intros Hp Hl.
    assert (E : Qeq_bool (value p) 0 = true) by (by apply Qeq_bool_iff).
    assert (E' : Qeq_bool (value l - value p) 0 = false).
    { destruct (Qeq_bool (value l - value p) 0) eqn:E'; [|reflexivity].
      apply Qeq_bool_iff in E'. lra. }
    assert (E'' : JS.Qltb 0 (value l - value p) = true) by (apply Qltb_lt; lra).
    rewrite E, E', E''. reflexivity.
Qed.

Lemma trend_cases_witness :
  MetricsChart.trend ([] ++ [mkPoint "t0" 50; mkPoint "t1" 55])
    = JS.Fin ((55 - 50) / 50 * 100) ∧
  MetricsChart.trend ([] ++ [mkPoint "t0" 0; mkPoint "t1" 0]) = JS.NaN ∧
  MetricsChart.trend ([] ++ [mkPoint "t0" 0; mkPoint "t1" 55]) = JS.PosInf.
Proof.
  split; [|split].
  - assert (H := proj1 (proj2 (proj2 (proj2 (proj2
                    (trend_cases [] (mkPoint "t0" 50) (mkPoint "t1" 55))))))).
    simpl value in H. rewrite H by discriminate. reflexivity.
  - apply (proj1 (proj2 (proj2 (proj2 (proj2 (proj2
             (trend_cases [] (mkPoint "t0" 0) (mkPoint "t1" 0)))))))); reflexivity.
  - apply (proj2 (proj2 (proj2 (proj2 (proj2 (proj2
             (trend_cases [] (mkPoint "t0" 0) (mkPoint "t1" 55)))))))); reflexivity.
Defined.

Lemma point_value_pos metricType now r :
  (0 <= r)%Q → (0 < value (point metricType now r))%Q.
Proof.
  intros Hr. rewrite point_value.
  eapply Qlt_le_trans; [|apply Q.le_max_r].
  unfold baseValue, variance, Qdiv. change (/ 2)%Q with (1 # 2)%Q.
  repeat match goal with
         | |- context [String.eqb ?a ?b] => destruct (String.eqb a b)
         end; lra.
Qed.

(** On a series whose point before the last was generated from a draw that
    is not negative, the trend is a finite number: generated values are
    positive, so the division is by a number that is not 0. *)
Theorem generated_trend_finite (init : list MetricData)
    (metricType now : string) (r : Q) (l : MetricData) :
  (0 <= r)%Q →
  ∃ t, MetricsChart.trend (init ++ [point metricType now r; l]) = JS.Fin t.
Proof.
  intros Hr. pose proof (point_value_pos metricType now r Hr) as Hpos.
  rewrite trend_snoc2. unfold JS.div.
  destruct (Qeq_bool (value (point metricType now r)) 0) eqn:E.
  - apply Qeq_bool_iff in E. lra.
  - eexists. reflexivity.
Qed.

Lemma generated_trend_finite_witness :
  ∃ t, MetricsChart.trend
         ([] ++ [point "cpuUsage" "t0" 0.2; point "cpuUsage" "t1" 0.9]) = JS.Fin t.
Proof.
  apply (generated_trend_finite [] "cpuUsage" "t0" 0.2). discriminate.
Defined.

End PointsAndChart.

(** ** More on the alert list *)

Section AlertListMore.

Import Alerts.

Lemma flipped_fields a b :
  flipped a b →
  id b = id a ∧ service b = service a ∧ type b = type a ∧
  message b = message a ∧ timestamp b = timestamp a.
Proof. intros [->| ->]; repeat split; reflexivity. Qed.

(** Where the alerts of a result come from, for draws in [0, 1): each is an
    unresolved alert of the list read, as it was or marked resolved, or it is
    the alert the run has created, whose service, kind and message are
    entries of the three fixed tables and whose id and time stamp are the
    clock's. *)
Theorem alert_provenance (alerts : list Alert) (c : Cycle) (b : Alert) :
  (0 <= pickService c < 1)%Q → (0 <= pickType c < 1)%Q →
  (0 <= pickMessage c < 1)%Q →
  b ∈ generateRealtimeData alerts c →
  (∃ a, a ∈ alerts ∧ resolved a = false ∧ flipped a b) ∨
  (flipped (newAlert c) b ∧ fires c (unresolved alerts) = true ∧
   service b ∈ services ∧ type b ∈ alertTypes ∧ message b ∈ messages ∧
   id b = dateNow c ∧ timestamp b = nowISO c).
Proof.
  intros Hs Ht Hm Hb. rewrite generateRealtimeData_eq in Hb.
  apply list_elem_of_lookup in Hb as [k Hk].
  destruct (Forall2_lookup_r _ _ _ _ _ (resolveSome_flipped c _) Hk)
    as (a & Ha & Hf).
  apply list_elem_of_lookup_2 in Ha. apply elem_of_app in Ha as [Ha|Ha].
  - left. exists a. apply list_elem_of_filter in Ha as [Hres Ha]. auto.
  - right. destruct (fires c (unresolved alerts)) eqn:E;
      [|by apply not_elem_of_nil in Ha].
    apply list_elem_of_singleton in Ha. subst a.
    destruct (flipped_fields _ _ Hf) as (-> & -> & -> & -> & ->).
    split; [exact Hf|]. split; [reflexivity|].
    split; [by apply pick_in_range|]. split; [by apply pick_in_range|].
    split; [by apply pick_in_range|]. split; reflexivity.
Qed.

Lemma alert_provenance_witness :
  (∃ a, a ∈ [newAlert (fireAt 0)] ∧ resolved a = false ∧
        flipped a (newAlert (fireAt 1))) ∨
  (flipped (newAlert (fireAt 1)) (newAlert (fireAt 1)) ∧
   fires (fireAt 1) (unresolved [newAlert (fireAt 0)]) = true ∧
   service (newAlert (fireAt 1)) ∈ services ∧
   type (newAlert (fireAt 1)) ∈ alertTypes ∧
   message (newAlert (fireAt 1)) ∈ messages ∧
   id (newAlert (fireAt 1)) = dateNow (fireAt 1) ∧
   timestamp (newAlert (fireAt 1)) = nowISO (fireAt 1)).
Proof.
  apply (alert_provenance [newAlert (fireAt 0)] (fireAt 1) (newAlert (fireAt 1)));
    try (split; [discriminate | reflexivity]).
  vm_compute. apply list_elem_of_further, list_elem_of_here.
Defined.

Lemma generateRealtimeData_ids alerts c :
  id <$> generateRealtimeData alerts c =
    (id <$> unresolved alerts) ++
    (if fires c (unresolved alerts) then [dateNow c] else []).
Proof.
  rewrite generateRealtimeData_eq.
  transitivity (id <$> (unresolved alerts ++
                        if fires c (unresolved alerts) then [newAlert c] else [])).
  - symmetry. pose proof (resolveSome_flipped c
      (unresolved alerts ++
       if fires c (unresolved alerts) then [newAlert c] else [])) as Hf.
    induction Hf as [|a b l l' Hab Hf IH]; [done|].
    csimpl. f_equal; [|exact IH]. symmetry. by apply flipped_fields.
  - rewrite fmap_app. by destruct (fires c (unresolved alerts)).
Qed.

Lemma ids_sublist alerts c :
  id <$> generateRealtimeData alerts c `sublist_of` (id <$> alerts) ++ [dateNow c].
Proof.
  rewrite generateRealtimeData_ids. apply sublist_app.
  - apply fmap_sublist. unfold unresolved. apply sublist_filter.
  - destruct (fires c (unresolved alerts)); [done | apply sublist_nil_l].
Qed.

Lemma foldl_ids_NoDup alerts cs :
  NoDup ((id <$> alerts) ++ (dateNow <$> cs)) →
  NoDup (id <$> foldl generateRealtimeData alerts cs).
Proof.
  revert alerts. induction cs as [|c cs IH]; intros alerts Hnd; simpl.
  - by rewrite app_nil_r in Hnd.
  - apply IH. eapply sublist_NoDup; [exact Hnd|].
    change (dateNow <$> c :: cs) with ([dateNow c] ++ (dateNow <$> cs)).
    rewrite app_assoc. apply sublist_app; [apply ids_sublist | done].
Qed.

(** When the runs from the empty list on read the clock at distinct instants,
    the alerts held after them have distinct ids. *)
Theorem ids_distinct (cs : list Cycle) :
  NoDup (dateNow <$> cs) →
  NoDup (id <$> foldl generateRealtimeData [] cs).
Proof. intros H. by apply foldl_ids_NoDup. Qed.

Lemma ids_distinct_witness : NoDup (id <$> fiveAlerts).
Proof.
  apply (ids_distinct (fireAt <$> seq 0 5)).
  vm_compute.
  repeat (apply NoDup_cons; split;
          [rewrite ?elem_of_cons, elem_of_nil; intuition discriminate|]).
  apply NoDup_nil_2.
Defined.

End AlertListMore.

(** ** The assistant's choice of a service *)

Section AssistantChoice.

Import Assistant.

Lemma foldl_largest {A} (f : A → Q) (x : A) (l : list A) :
  let m := foldl (λ prev current,
                    if JS.Qltb (f current) (f prev) then prev else current) x l in
  m ∈ x :: l ∧ ∀ y, y ∈ x :: l → (f y <= f m)%Q.
Proof.
  revert x. induction l as [|z l IH]; intros x; simpl.
  - split; [left|]. intros y Hy%list_elem_of_singleton. subst. apply Qle_refl.
  - destruct (JS.Qltb (f z) (f x)) eqn:E.
    + destruct (IH x) as [Hin Hmax]. split.
      * apply elem_of_cons in Hin as [->|Hin]; [left | do 2 right; exact Hin].
      * intros y Hy. apply Qltb_lt in E.
        apply elem_of_cons in Hy as [->|Hy]; [apply Hmax; left|].
        apply elem_of_cons in Hy as [->|Hy]; [|apply Hmax; by right].
        eapply Qle_trans; [apply Qlt_le_weak, E | apply Hmax; left].
    + destruct (IH z) as [Hin Hmax]. split.
      * by right.
      * intros y Hy. apply Qltb_ge in E.
        apply elem_of_cons in Hy as [->|Hy];
          [eapply Qle_trans; [exact E | apply Hmax; left]|].
        by apply Hmax.
Qed.

(** The service the assistant names as slowest, and the one it names for the
    highest error rate: with no service the [reduce] throws; otherwise the
    service named is one of the list and none has a larger response time
    (a larger error rate). *)
Theorem assistant_choice (services : list ServiceStatus) :
  (services = [] →
     slowestService services = None ∧ highestErrorService services = None) ∧
  (services ≠ [] →
     ∃ s e, slowestService services = Some s ∧
            highestErrorService services = Some e ∧
            s ∈ services ∧ e ∈ services ∧
            ∀ x, x ∈ services →
                 (responseTime x <= responseTime s)%Q ∧
                 (errorRate x <= errorRate e)%Q).
Proof.
  split; [by intros ->|].
  intros Hne. destruct services as [|x l]; [done|].
  unfold slowestService, highestErrorService, reduce1.
  destruct (foldl_largest responseTime x l) as [Hs Hsmax].
  destruct (foldl_largest errorRate x l) as [He Hemax].
  eexists _, _. split; [reflexivity|]. split; [reflexivity|].
  split; [exact Hs|]. split; [exact He|].
  intros y Hy. split; [by apply Hsmax | by apply Hemax].
Qed.

Lemma assistant_choice_witness :
  ∃ s e, slowestService oneFailing = Some s ∧
         highestErrorService oneFailing = Some e ∧
         s ∈ oneFailing ∧ e ∈ oneFailing ∧
         ∀ x, x ∈ oneFailing →
              (responseTime x <= responseTime s)%Q ∧ (errorRate x <= errorRate e)%Q.
Proof.
  apply (proj2 (assistant_choice oneFailing)). discriminate.
Defined.

Example oneFailing_choice :
  name <$> slowestService oneFailing = Some "Accounts Service" ∧
  name <$> highestErrorService oneFailing = Some "Payments Service".
Proof. split; reflexivity. Qed.

End AssistantChoice.

(** ** The mock services and the rules *)

Section MockData.

Import Mock AIAnalytics.

Lemma floor_bounds (x : Q) (a b : Z) :
  (inject_Z a <= x)%Q → (x < inject_Z b)%Q →
  (inject_Z a <= JSArith.floor x)%Q ∧ (JSArith.floor x <= inject_Z (b - 1))%Q.
Proof.
  intros Ha Hb. unfold JSArith.floor. rewrite <- !Zle_Qle. split.
  - rewrite <- (Qfloor_Z a). by apply Qfloor_resp_le.
  - assert (H : (Qfloor x < b)%Z).
    { rewrite Zlt_Qlt. eapply Qle_lt_trans; [apply Qfloor_le | exact Hb]. }
    lia.
Qed.

Lemma mock_errorRates random :
  errorRate <$> mockServices random
  = [(random 3%nat * 0.02)%Q; (random 11%nat * 0.025)%Q; (random 19%nat * 0.04)%Q].
Proof. reflexivity. Qed.

Lemma mock_connections random :
  (λ s, active_connections (metrics s)) <$> mockServices random
  = [JSArith.floor (40 + random 7%nat * 20)%Q;
     JSArith.floor (20 + random 15%nat * 15)%Q;
     JSArith.floor (15 + random 23%nat * 10)%Q].
Proof. reflexivity. Qed.

Lemma mock_anomaly random : inRange random → anomalyFires (mockServices random) = false.
Proof.
  intros Hr. apply (fires_false_of_mean _ _ (anomalyFires_mean _)).
  intros [_ H]. unfold mean in H. rewrite mock_errorRates in H.
  simpl foldr in H. simpl length in H.
  change (inject_Z (Z.of_nat 3)) with 3%Q in H.
  unfold Qdiv in H. change (/ 3)%Q with (1 # 3)%Q in H.
  destruct (Hr 3%nat), (Hr 11%nat), (Hr 19%nat). lra.
Qed.

Lemma mock_capacity random : inRange random → capacityFires (mockServices random) = false.
Proof.
  intros Hr. unfold capacityFires. apply Qltb_ge.
  rewrite totalConnections_sum, mock_connections. simpl foldr.
  destruct (Hr 7%nat) as [Ra Ra'], (Hr 15%nat) as [Rb Rb'], (Hr 23%nat) as [Rc Rc'].
  destruct (floor_bounds (40 + random 7%nat * 20) 40 60) as [_ H1];
    [change (inject_Z 40) with 40%Q; lra | change (inject_Z 60) with 60%Q; lra|].
  destruct (floor_bounds (20 + random 15%nat * 15) 20 35) as [_ H2];
    [change (inject_Z 20) with 20%Q; lra | change (inject_Z 35) with 35%Q; lra|].
  destruct (floor_bounds (15 + random 23%nat * 10) 15 25) as [_ H3];
    [change (inject_Z 15) with 15%Q; lra | change (inject_Z 25) with 25%Q; lra|].
  change (inject_Z (60 - 1)) with 59%Q in H1.
  change (inject_Z (35 - 1)) with 34%Q in H2.
  change (inject_Z (25 - 1)) with 24%Q in H3. lra.
Qed.

(** On the mock services, for draws in [0, 1): the anomaly rule and the
    capacity rule never fire (the mean error rate stays below 0.0284 and the
    connections below 118), no service is ever in error, and every insight is
    the prediction insight, the nominal one, or a health-risk insight of
    severity [high]. *)
Theorem mock_insights (random : nat → Q) :
  inRange random →
  anomalyFires (mockServices random) = false ∧
  capacityFires (mockServices random) = false ∧
  (∀ s, s ∈ mockServices random → status s ≠ error) ∧
  (∀ i, i ∈ generateAIInsights (mockServices random) →
     i = predictionInsight ∨ i = optimalInsight ∨
     (i = healthInsight (mockServices random) (healthScore (mockServices random)) ∧
      severity i = high)).
Proof.
  intros Hr. split; [by apply mock_anomaly|]. split; [by apply mock_capacity|].
  split.
  - intros s Hs. unfold mockServices in Hs.
    repeat (apply elem_of_cons in Hs as [->|Hs];
            [simpl; match goal with |- context [JS.Qltb ?a ?b] =>
               destruct (JS.Qltb a b) end; discriminate|]).
    by apply not_elem_of_nil in Hs.
  - intros i Hi. rewrite generateAIInsights_eq in Hi.
    rewrite (mock_anomaly random Hr), (mock_capacity random Hr) in Hi.
    destruct (healthFires (mockServices random)) eqn:Eh.
    + assert (Hsev : severity (healthInsight (mockServices random)
                                 (healthScore (mockServices random))) = high).
      { rewrite healthInsight_severity by discriminate.
        apply healthFires_iff in Eh.
        apply (filter_length_lt (λ s, status s = healthy)) in Eh.
        rewrite decide_True; [reflexivity|].
        change (length (mockServices random)) with 3%nat in *. lia. }
      destruct (predictionFires (mockServices random)); simpl in Hi;
        repeat (apply elem_of_cons in Hi as [->|Hi]; [auto|]);
        by apply not_elem_of_nil in Hi.
    + destruct (predictionFires (mockServices random)); simpl in Hi;
        repeat (apply elem_of_cons in Hi as [->|Hi]; [auto|]);
        by apply not_elem_of_nil in Hi.
Qed.

Lemma mock_insights_witness :
  anomalyFires (mockServices (λ _, 0.99%Q)) = false ∧
  capacityFires (mockServices (λ _, 0.99%Q)) = false.
Proof.
  assert (H : inRange (λ _, 0.99%Q)).
  { intros k. split; [discriminate | reflexivity]. }
  destruct (mock_insights (λ _, 0.99%Q) H) as (H1 & H2 & _).
  split; [exact H1 | exact H2].
Defined.

(** The prediction rule does fire on some draws and not on others. *)
Example mock_prediction :
  predictionFires (mockServices (λ _, 0.99%Q)) = true ∧
  predictionFires (mockServices (λ _, 0%Q)) = false.
Proof. split; vm_compute; reflexivity. Qed.

(** The mock overview, for draws in [0, 1): its error rate lies in
    [0.023, 0.033], its active connections in [317, 366], always above the
    150 of the capacity rule, and its total requests in [125430, 125529];
    the capacity rule reads the services instead and finds at most 120
    connections there.  (The bounds are closed where the code adds to a draw
    before it rounds down or compares: next to 1 such a sum can round up to
    the bound.) *)
Theorem mock_overview_bounds (random : nat → Q) :
  inRange random →
  (∃ e, Overview.errorRate (mockSystemOverview random) = JS.Fin e ∧
        (0.023 <= e <= 0.033)%Q) ∧
  (317 <= Overview.activeConnections (mockSystemOverview random) <= 366)%Q ∧
  (125430 <= Overview.totalRequests (mockSystemOverview random) <= 125529)%Q ∧
  (totalConnections (mockServices random) <= 120)%Q.
Proof.
  intros Hr. split; [|split; [|split]].
  - eexists. split; [reflexivity|]. destruct (Hr 29%nat). split; lra.
  - simpl. destruct (Hr 25%nat) as [Ra Ra'].
    destruct (floor_bounds (random 25%nat * 50 - 25) (-25) 25) as [H1 H2];
      [change (inject_Z (-25)) with (-25)%Q; lra
      | change (inject_Z 25) with 25%Q; lra|].
    change (inject_Z (-25)) with (-25)%Q in H1.
    change (inject_Z (25 - 1)) with 24%Q in H2. split; lra.
  - simpl. destruct (Hr 24%nat) as [Ra Ra'].
    destruct (floor_bounds (random 24%nat * 100) 0 100) as [H1 H2];
      [change (inject_Z 0) with 0%Q; lra
      | change (inject_Z 100) with 100%Q; lra|].
    change (inject_Z 0) with 0%Q in H1.
    change (inject_Z (100 - 1)) with 99%Q in H2. split; lra.
  - rewrite totalConnections_sum, mock_connections. simpl foldr.
    destruct (Hr 7%nat) as [Ra Ra'], (Hr 15%nat) as [Rb Rb'],
      (Hr 23%nat) as [Rc Rc'].
    destruct (floor_bounds (40 + random 7%nat * 20) 40 60) as [_ H1];
      [change (inject_Z 40) with 40%Q; lra | change (inject_Z 60) with 60%Q; lra|].
    destruct (floor_bounds (20 + random 15%nat * 15) 20 35) as [_ H2];
      [change (inject_Z 20) with 20%Q; lra | change (inject_Z 35) with 35%Q; lra|].
    destruct (floor_bounds (15 + random 23%nat * 10) 15 25) as [_ H3];
      [change (inject_Z 15) with 15%Q; lra | change (inject_Z 25) with 25%Q; lra|].
    change (inject_Z (60 - 1)) with 59%Q in H1.
    change (inject_Z (35 - 1)) with 34%Q in H2.
    change (inject_Z (25 - 1)) with 24%Q in H3. lra.
Qed.

Lemma mock_overview_bounds_witness :
  (317 <= Overview.activeConnections (mockSystemOverview (λ _, 0.5%Q)) <= 366)%Q.
Proof.
  assert (H : inRange (λ _, 0.5%Q)).
  { intros k. split; [discriminate | reflexivity]. }
  exact (proj1 (proj2 (mock_overview_bounds (λ _, 0.5%Q) H))).
Defined.

End MockData.
